(** * Workforce API: the leave-adjudication pipeline

    A shallow embedding of the services, repositories and queue worker of
    the workforce-management API (TypeScript, Express + TypeORM + Redis +
    RabbitMQ), and the properties of its idempotency, cache-invalidation
    and retry logic.

    Conventions of the embedding.
    - A JavaScript string is a [string]: the bytes of its UTF-8 text. A
      [Buffer] is the same sequence of bytes, so [Buffer.from] and
      [toString] are the identity. A regular expression runs on the
      UTF-16 code units of the string, [code_units].
    - A JavaScript number is a [number], an IEEE 754 double, with the
      arithmetic of the standard library's [SpecFloat]. The numbers that
      are integers by construction are in [Z]: the length of an array,
      the bytes of a buffer, a time to live, and the [getTime()] of a
      valid [Date], at most 8.64e15 either way. The code compares two
      dates, and their difference with two days: comparisons that the
      rounding of a double does not change. A [Date] is its ISO text
      where the code only serialises it.
    - An [async] function is a computation in the monad [M]: it reads and
      writes the [World] (Redis, the relational store, the log of calls
      made to the outside) and returns a value, throws, or leaves the
      fragment of JavaScript that is modelled ([Stuck]). Every call of an
      [async] function is awaited, except the calls of the queue
      producer: such a call returns at once and its body runs later, from
      the [pending] calls of the world. *)

From stdpp Require Import base strings gmap list pretty.
From Stdlib Require Import ZArith Ascii String SpecFloat.

Local Open Scope string_scope.
Local Open Scope Z_scope.

(** ** JavaScript numbers

    A number is a binary64 value. Those the code receives and computes
    are in canonical form ([valid_binary]), which the operations keep. *)

Definition number : Type := spec_float.

Definition prec : Z := 53.
Definition emax : Z := 1024.

(** The number of an integer literal, and of an integer in general:
    the nearest double. *)
Definition number_of_Z (z : Z) : number := binary_normalize prec emax z 0 false.

Definition number_add : number -> number -> number := SFadd prec emax.
Definition number_sub : number -> number -> number := SFsub prec emax.
Definition number_mul : number -> number -> number := SFmul prec emax.

(** [a < b], false when either is [NaN]. *)
Definition number_lt : number -> number -> bool := SFltb.

(** ToBoolean: zero and [NaN] are falsy. *)
Definition number_truthy (x : number) : bool :=
  match x with
  | S754_zero _ | S754_nan => false
  | _ => true
  end.

Definition number_finite (x : number) : bool :=
  match x with
  | S754_zero _ | S754_finite _ _ _ => true
  | _ => false
  end.

Inductive IntegerOrInfinity : Type :=
  | NegInfinity
  | Integer (z : Z)
  | PosInfinity.

(** ToIntegerOrInfinity: [NaN] is 0, a fraction is truncated towards 0. *)
Definition ToIntegerOrInfinity (x : number) : IntegerOrInfinity :=
  match x with
  | S754_nan | S754_zero _ => Integer 0
  | S754_infinity true => NegInfinity
  | S754_infinity false => PosInfinity
  | S754_finite s m e => Integer (cond_Zopp s (Z.shiftl (Zpos m) e))
  end.

(** The value of a number that is an integer, [None] for the others. *)
Definition integer_value (x : number) : option Z :=
  match x with
  | S754_zero _ => Some 0
  | S754_finite s m e =>
      if valid_binary prec emax x && ((0 <=? e) || (Zpos m mod 2 ^ (- e) =? 0))
      then Some (cond_Zopp s (Z.shiftl (Zpos m) e))
      else None
  | _ => None
  end.

(** ** JavaScript values and [JSON.stringify]

    A number of a document is an integer, [JNum], or is given by the
    text [Number::toString] prints for it, [JNumber]. *)

#[warnings="-register-all"]
Inductive Json : Type :=
  | JNull
  | JBool (b : bool)
  | JNum (n : Z)
  | JNumber (text : string)
  | JStr (s : string)
  | JArr (xs : list Json)
  | JObj (fields : list (string * Json)).

Definition hex_digit (n : N) : ascii :=
  match n with
  | 0 => "0" | 1 => "1" | 2 => "2" | 3 => "3" | 4 => "4" | 5 => "5"
  | 6 => "6" | 7 => "7" | 8 => "8" | 9 => "9" | 10 => "a" | 11 => "b"
  | 12 => "c" | 13 => "d" | 14 => "e" | _ => "f"
  end%N%char.

Definition dquote : string := String (ascii_of_N 34) EmptyString.

(** QuoteJSONString, one code unit at a time: the quote, the backslash and
    the control characters are escaped, everything else is copied. *)
Definition quote_char (c : ascii) : string :=
  let n := N_of_ascii c in
  if (n =? 34)%N then String "\" dquote
  else if (n =? 92)%N then "\\"
  else if (n =? 8)%N then "\b"
  else if (n =? 12)%N then "\f"
  else if (n =? 10)%N then "\n"
  else if (n =? 13)%N then "\r"
  else if (n =? 9)%N then "\t"
  else if (n <? 32)%N then
    "\u00" +:+ String (hex_digit (n / 16)) (String (hex_digit (n mod 16)) EmptyString)
  else String c EmptyString.

Fixpoint quote_body (s : string) : string :=
  match s with
  | EmptyString => EmptyString
  | String c s' => quote_char c +:+ quote_body s'
  end.

Definition quote (s : string) : string := dquote +:+ quote_body s +:+ dquote.

Definition join_comma (parts : list string) : string :=
  match parts with
  | [] => EmptyString
  | p :: ps => p +:+ fold_right (fun q acc => "," +:+ q +:+ acc) EmptyString ps
  end.

Fixpoint JSON_stringify (v : Json) : string :=
  match v with
  | JNull => "null"
  | JBool true => "true"
  | JBool false => "false"
  | JNum n => pretty n
  | JNumber text => text
  | JStr s => quote s
  | JArr xs => "[" +:+ join_comma (map JSON_stringify xs) +:+ "]"
  | JObj fields =>
      "{" +:+ join_comma (map (fun kv => quote (fst kv) +:+ ":" +:+ JSON_stringify (snd kv)) fields)
          +:+ "}"
  end.

(** [buffer.toJSON()], what [JSON.stringify] sees when it is handed a
    [Buffer]: the bytes as an array of numbers. *)
Fixpoint buffer_bytes (b : string) : list Json :=
  match b with
  | EmptyString => []
  | String c b' => JNum (Z.of_N (N_of_ascii c)) :: buffer_bytes b'
  end.

Definition Buffer_toJSON (b : string) : Json :=
  JObj [("type", JStr "Buffer"); ("data", JArr (buffer_bytes b))].

(** JavaScript truthiness of a [string | null] and of a [string | undefined]. *)
Definition truthy (v : option string) : bool :=
  match v with
  | Some s => negb (String.eqb s EmptyString)
  | None => false
  end.

(** Property lookup on a parsed object. *)
Fixpoint get_field (k : string) (fields : list (string * Json)) : option Json :=
  match fields with
  | [] => None
  | (k', v) :: rest => if String.eqb k k' then Some v else get_field k rest
  end.

(** ** Redis [KEYS] patterns

    [KEYS] takes a glob pattern. The patterns this code builds are a
    literal text followed by one final [*]; [glob_supported] recognises
    that fragment (no [?], no bracket class, no backslash, a star only in
    last position), on which matching is a comparison character by
    character and the star accepts any rest. *)

Definition glob_meta (c : ascii) : bool :=
  let n := N_of_ascii c in
  ((n =? 42) || (n =? 63) || (n =? 91) || (n =? 92))%N.

Fixpoint glob_literal (s : string) : bool :=
  match s with
  | EmptyString => true
  | String c s' => negb (glob_meta c) && glob_literal s'
  end.

Fixpoint glob_supported (p : string) : bool :=
  match p with
  | EmptyString => true
  | String c p' =>
      if Ascii.eqb c "*" then String.eqb p' EmptyString
      else negb (glob_meta c) && glob_supported p'
  end.

Fixpoint glob_match (p s : string) : bool :=
  match p with
  | EmptyString => String.eqb s EmptyString
  | String c p' =>
      if Ascii.eqb c "*" then true
      else match s with
           | EmptyString => false
           | String d s' => Ascii.eqb c d && glob_match p' s'
           end
  end.

(** ** Strings as a regular expression reads them

    A regular expression without the [u] flag runs on the UTF-16 code
    units of a string. [code_points] decodes the UTF-8 text (what is not
    the UTF-8 of a character is read as U+FFFD, as a decoder does), and a
    character beyond U+FFFF is two code units. *)

Definition replacement_character : N := 65533.

(** The six low bits of a continuation byte. *)
Definition continuation (c : ascii) : option N :=
  let n := N_of_ascii c in
  if ((128 <=? n) && (n <? 192))%N then Some (n - 128)%N else None.

Definition scalar_value (least cp : N) : N :=
  if ((least <=? cp) && (cp <? 1114112) && negb ((55296 <=? cp) && (cp <? 57344)))%N
  then cp else replacement_character.

Fixpoint code_points (s : string) : list N :=
  match s with
  | EmptyString => []
  | String c0 s1 =>
      let b0 := N_of_ascii c0 in
      if (b0 <? 128)%N then b0 :: code_points s1
      else
        match s1 with
        | String c1 s2 =>
            match continuation c1 with
            | Some b1 =>
                if ((192 <=? b0) && (b0 <? 224))%N
                then
                  let cp := ((b0 - 192) * 64 + b1)%N in
                  if (128 <=? cp)%N then cp :: code_points s2
                  else replacement_character :: code_points s1
                else
                  match s2 with
                  | String c2 s3 =>
                      match continuation c2 with
                      | Some b2 =>
                          if ((224 <=? b0) && (b0 <? 240))%N
                          then
                            let cp := ((b0 - 224) * 4096 + b1 * 64 + b2)%N in
                            if N.eqb (scalar_value 2048 cp) cp then cp :: code_points s3
                            else replacement_character :: code_points s1
                          else
                            match s3 with
                            | String c3 s4 =>
                                match continuation c3 with
                                | Some b3 =>
                                    let cp := ((b0 - 240) * 262144 + b1 * 4096
                                               + b2 * 64 + b3)%N in
                                    if ((240 <=? b0) && (b0 <? 248)
                                        && N.eqb (scalar_value 65536 cp) cp)%N
                                    then cp :: code_points s4
                                    else replacement_character :: code_points s1
                                | None => replacement_character :: code_points s1
                                end
                            | EmptyString => replacement_character :: code_points s1
                            end
                      | None => replacement_character :: code_points s1
                      end
                  | EmptyString => replacement_character :: code_points s1
                  end
            | None => replacement_character :: code_points s1
            end
        | EmptyString => [replacement_character]
        end
  end.

Definition utf16 (cp : N) : list N :=
  if (cp <? 65536)%N then [cp]
  else [(55296 + (cp - 65536) / 1024)%N; (56320 + (cp - 65536) mod 1024)%N].

Definition code_units (s : string) : list N := flat_map utf16 (code_points s).

(** ** Regular expressions

    Matched with Brzozowski derivatives, one code unit at a time. *)

Inductive regex : Type :=
  | Void
  | Eps
  | Class (p : N -> bool)
  | Seq (r1 r2 : regex)
  | Alt (r1 r2 : regex)
  | Star (r : regex).

Fixpoint nullable (r : regex) : bool :=
  match r with
  | Void => false
  | Eps => true
  | Class _ => false
  | Seq r1 r2 => nullable r1 && nullable r2
  | Alt r1 r2 => nullable r1 || nullable r2
  | Star _ => true
  end.

Fixpoint deriv (c : N) (r : regex) : regex :=
  match r with
  | Void => Void
  | Eps => Void
  | Class p => if p c then Eps else Void
  | Seq r1 r2 =>
      if nullable r1 then Alt (Seq (deriv c r1) r2) (deriv c r2)
      else Seq (deriv c r1) r2
  | Alt r1 r2 => Alt (deriv c r1) (deriv c r2)
  | Star r1 => Seq (deriv c r1) (Star r1)
  end.

Fixpoint regex_test (r : regex) (s : list N) : bool :=
  match s with
  | [] => nullable r
  | c :: s' => regex_test (deriv c r) s'
  end.

(** [/^r$/.test(s)] *)
Definition RegExp_test (r : regex) (s : string) : bool := regex_test r (code_units s).

Definition Plus (r : regex) : regex := Seq r (Star r).
Definition Chr (c : ascii) : regex := Class (N.eqb (N_of_ascii c)).

(** [\s]: the white space and the line terminators of ECMAScript, that
    is TAB, LF, VT, FF, CR, the space, the no-break space U+00A0, U+1680,
    U+2000 to U+200A, the line and paragraph separators U+2028 and
    U+2029, U+202F, U+205F, U+3000 and the byte order mark U+FEFF. *)
Definition is_space (c : N) : bool :=
  (((9 <=? c) && (c <=? 13)) || (c =? 32) || (c =? 160) || (c =? 5760)
   || ((8192 <=? c) && (c <=? 8202)) || (c =? 8232) || (c =? 8233)
   || (c =? 8239) || (c =? 8287) || (c =? 12288) || (c =? 65279))%N.

(** ** The e-mail regular expression, [/^[^\s@]+@[^\s@]+\.[^\s@]+$/] *)

Definition not_space_at : regex :=
  Class (fun c => negb (is_space c) && negb (N.eqb c (N_of_ascii "@"))).

Definition emailRegex : regex :=
  Seq (Plus not_space_at)
      (Seq (Chr "@") (Seq (Plus not_space_at) (Seq (Chr ".") (Plus not_space_at)))).

(** ** Errors

    Modelled from the spec: [utils/errors] is not among the sources. The
    spec's taxonomy is Conflict, NotFound and BadRequest (the [AppError]s,
    each with its own HTTP status in [errorHandler]); a plain JavaScript
    [Error] is none of them and is answered with status 500. The other
    constructors are the errors of the run time and of TypeORM. *)

Inductive AppError : Type :=
  | ConflictError (message : string)
  | NotFoundError (message : string)
  | BadRequestError (message : string)
  | Error (message : string)
  | SyntaxError
  | TypeError
  | QueryFailedError (message : string).

(** The status [errorHandler] answers with. *)
Definition statusCode (e : AppError) : Z :=
  match e with
  | ConflictError _ => 409
  | NotFoundError _ => 404
  | BadRequestError _ => 400
  | QueryFailedError _ => 400
  | Error _ | SyntaxError | TypeError => 500
  end.

(** ** Entities and the relational store *)

Inductive Status : Type := PENDING | APPROVED | REJECTED.

Definition Status_name (s : Status) : string :=
  match s with
  | PENDING => "PENDING"
  | APPROVED => "APPROVED"
  | REJECTED => "REJECTED"
  end.

Module Department.
Record t : Type := { id : string; name : string; createdAt : string }.
End Department.

Module Employee.
Record t : Type :=
  { id : string; name : string; email : string; departmentId : string;
    updatedAt : string; createdAt : string }.

Definition toJSON (e : t) : Json :=
  JObj [("id", JStr (id e)); ("name", JStr (name e)); ("email", JStr (email e));
        ("departmentId", JStr (departmentId e));
        ("updatedAt", JStr (updatedAt e)); ("createdAt", JStr (createdAt e))].
End Employee.

Module LeaveRequest.
Record t : Type :=
  { id : string; employeeId : string; startDate : Z; endDate : Z; status : Status }.
End LeaveRequest.

(** [EmployeeInsert]; [departmentId] may be missing at run time. *)
Record EmployeeInsert : Type :=
  { ei_name : string; ei_email : string; ei_departmentId : option string }.

Record LeaveRequestInsert : Type :=
  { li_employeeId : string; li_startDate : Z; li_endDate : Z }.

Record Store : Type :=
  { employees : list Employee.t;
    leaveRequests : list LeaveRequest.t;
    departments : list Department.t }.

(** ** Messages, settings and the world *)

(** The value of a message header as the AMQP client decodes it: a
    number, a string, a boolean, [null] for the void field, or an object
    (a table, an array, a byte array, a timestamp), which is kept as the
    string it converts to. *)
Inductive HeaderValue : Type :=
  | HNum (n : number)
  | HStr (s : string)
  | HBool (b : bool)
  | HNull
  | HObject (text : string).

(** A consumed message: [msg.content] and [msg.properties.headers]. *)
Record Message : Type :=
  { content : string; headers : option (gmap string HeaderValue) }.

(** One [channel.sendToQueue(queue, content, options)]; [pub_options] is
    the [headers] and the [persistent] flag, or [None] when the call
    passes no options. *)
Record Publication : Type :=
  { pub_queue : string;
    pub_content : string;
    pub_options : option (gmap string HeaderValue * bool) }.

Record Settings : Type :=
  { RABBITMQ_QUEUE_NAME : string;
    RABBITMQ_DLQ_NAME : string;
    MAX_RETRIES : number }.

(** [process.env.X || fallback] and [Number(process.env.X) || fallback].
    A variable that is unset is [None]; for one that is set, [retries]
    is the number [Number] makes of its text, [NaN] when it is no
    number. *)
Definition env_string (v : option string) (fallback : string) : string :=
  if truthy v then default fallback v else fallback.

Definition env_number (v : option number) (fallback : number) : number :=
  match v with
  | Some n => if number_truthy n then n else fallback
  | None => fallback
  end.

Definition Settings_load (queue dlq : option string) (retries : option number) : Settings :=
  {| RABBITMQ_QUEUE_NAME := env_string queue "leave_requests";
     RABBITMQ_DLQ_NAME := env_string dlq "leave_requests_dlq";
     MAX_RETRIES := env_number retries (number_of_Z 5) |}.

Definition default_Settings : Settings := Settings_load None None None.

(** Every call the services and the worker make to the outside. *)
Inductive Event : Type :=
  | RedisGet (key : string)
  | RedisSetEx (key : string) (seconds : Z) (value : string)
  | RedisKeys (pattern : string)
  | RedisDel (keys : list string)
  | Transaction
  | GetEmployeeById (id : string)
  | GetEmployeeByEmail (email : string)
  | GetAllEmployees
  | GetDepartmentById (id : string)
  | FindLeaveById (id : string)
  | AssertQueue (queue : string)
  | SendToQueue (p : Publication)
  | Ack (m : Message).

(** A call of an [async] function that its caller does not await. The
    call has run to its first [await] and returned a promise nobody looks
    at; the rest of its body runs when the event loop comes back to it,
    after the caller has gone on. The one function called that way is
    the queue producer, [sendMessageToQueue(message)], whose first
    statement awaits [getChannel()]. *)
Inductive Pending : Type :=
  | PendingSend (cfg : Settings) (message : Json).

(** Redis holds a value and its time to live in seconds for each key. *)
Record World : Type :=
  { redis : gmap string (string * Z);
    db : Store;
    calls : list Event;
    pending : list Pending }.

Definition emit (ev : Event) (w : World) : World :=
  {| redis := redis w; db := db w; calls := calls w ++ [ev]; pending := pending w |}.

Definition set_redis (r : gmap string (string * Z)) (w : World) : World :=
  {| redis := r; db := db w; calls := calls w; pending := pending w |}.

Definition set_db (s : Store) (w : World) : World :=
  {| redis := redis w; db := s; calls := calls w; pending := pending w |}.

Definition set_pending (p : list Pending) (w : World) : World :=
  {| redis := redis w; db := db w; calls := calls w; pending := p |}.

(** The call is left to the event loop, behind those already there. *)
Definition suspend (p : Pending) (w : World) : World :=
  set_pending (pending w ++ [p]) w.

(** What [await getChannel()] comes back with: a channel, or the error
    the promise is rejected with (the connection cannot be made, or the
    connection has no channel left to give). *)
Inductive ChannelOutcome : Type :=
  | Opened
  | Rejected (message : string).

(** What the outside decides during one call: whether the store fails the
    transaction (and with what message), the identifier the store
    generates, the time, and what other clients have written to the store
    by the time the transaction runs. *)
Record Env : Type :=
  { tx_error : option string;
    fresh_id : string;
    now : string;
    concurrent : Store -> Store }.

(** ** The monad of asynchronous calls *)

Inductive Result (A : Type) : Type :=
  | Ok (a : A)
  | Throw (e : AppError)
  | Stuck.
Arguments Ok {A} a.
Arguments Throw {A} e.
Arguments Stuck {A}.

Definition M (A : Type) : Type := World -> Result A * World.

#[global] Instance M_ret : MRet M := fun A a w => (Ok a, w).

#[global] Instance M_bind : MBind M := fun A B f m w =>
  match m w with
  | (Ok a, w') => f a w'
  | (Throw e, w') => (Throw e, w')
  | (Stuck, w') => (Stuck, w')
  end.

Definition throw {A} (e : AppError) : M A := fun w => (Throw e, w).
Definition stuck {A} : M A := fun w => (Stuck, w).
Definition call (ev : Event) : M unit := fun w => (Ok tt, emit ev w).

(** [try { body } catch (error) { handler }] *)
Definition try_catch {A} (body : M A) (handler : AppError -> M A) : M A := fun w =>
  match body w with
  | (Throw e, w') => handler e w'
  | r => r
  end.

(** ** Redis client *)

Definition redis_get (key : string) : M (option string) := fun w =>
  (Ok (fst <$> redis w !! key), emit (RedisGet key) w).

Definition redis_setEx (key : string) (seconds : Z) (value : string) : M unit := fun w =>
  (Ok tt, emit (RedisSetEx key seconds value) (set_redis (<[key := (value, seconds)]> (redis w)) w)).

Definition redis_keys (pattern : string) : M (list string) := fun w =>
  if glob_supported pattern
  then (Ok (filter (fun k => glob_match pattern k = true) (map fst (map_to_list (redis w)))),
        emit (RedisKeys pattern) w)
  else (Stuck, w).

Definition redis_del (keys : list string) : M unit := fun w =>
  (Ok tt, emit (RedisDel keys) (set_redis (foldr delete (redis w) keys) w)).

(** ** Repositories (TypeORM) *)

Definition id_is {A} (get : A -> string) (i : string) (x : A) : bool := String.eqb (get x) i.

Module LeaveRequestRepository.
(** [create({...leaveInfo, status: "PENDING"})] then [save]. *)
Definition createRequest (leaveInfo : LeaveRequestInsert) (new_id : string) (s : Store)
  : Result LeaveRequest.t * Store :=
  let request :=
    {| LeaveRequest.id := new_id;
       LeaveRequest.employeeId := li_employeeId leaveInfo;
       LeaveRequest.startDate := li_startDate leaveInfo;
       LeaveRequest.endDate := li_endDate leaveInfo;
       LeaveRequest.status := PENDING |} in
  (Ok request,
   {| employees := employees s;
      leaveRequests := leaveRequests s ++ [request];
      departments := departments s |}).

Definition findById (id : string) (s : Store) : option LeaveRequest.t :=
  find (id_is LeaveRequest.id id) (leaveRequests s).

Definition set_status (id : string) (status : Status) (r : LeaveRequest.t) : LeaveRequest.t :=
  if id_is LeaveRequest.id id r
  then {| LeaveRequest.id := LeaveRequest.id r;
          LeaveRequest.employeeId := LeaveRequest.employeeId r;
          LeaveRequest.startDate := LeaveRequest.startDate r;
          LeaveRequest.endDate := LeaveRequest.endDate r;
          LeaveRequest.status := status |}
  else r.

(** [update({ id }, { status })] then [findById(id)]. *)
Definition updateStatus (id : string) (status : Status) (s : Store)
  : Result (option LeaveRequest.t) * Store :=
  let s' := {| employees := employees s;
               leaveRequests := map (set_status id status) (leaveRequests s);
               departments := departments s |} in
  (Ok (findById id s'), s').

Definition deleteRequest (id : string) (s : Store) : Result unit * Store :=
  (Ok tt,
   {| employees := employees s;
      leaveRequests := List.filter (fun r => negb (id_is LeaveRequest.id id r)) (leaveRequests s);
      departments := departments s |}).
End LeaveRequestRepository.

Module EmployeeRepository.
Definition getEmployeeById (id : string) (s : Store) : option Employee.t :=
  find (id_is Employee.id id) (employees s).

Definition getEmployeeByEmail (email : string) (s : Store) : option Employee.t :=
  find (id_is Employee.email email) (employees s).

Definition getAllEmployees (s : Store) : list Employee.t := employees s.

(** [create(employeeInfo)] then [save]. The entity declares [name] and
    [email] unique and [departmentId] not nullable: the store refuses
    the row otherwise. *)
Definition createEmployee (employeeInfo : EmployeeInsert) (new_id today : string) (s : Store)
  : Result Employee.t * Store :=
  match ei_departmentId employeeInfo with
  | None => (Throw (QueryFailedError "Field 'departmentId' doesn't have a default value"), s)
  | Some dep =>
      if existsb (fun e => String.eqb (Employee.name e) (ei_name employeeInfo)
                           || String.eqb (Employee.email e) (ei_email employeeInfo))
                 (employees s)
      then (Throw (QueryFailedError "Duplicate entry"), s)
      else
        let employee :=
          {| Employee.id := new_id;
             Employee.name := ei_name employeeInfo;
             Employee.email := ei_email employeeInfo;
             Employee.departmentId := dep;
             Employee.updatedAt := today;
             Employee.createdAt := today |} in
        (Ok employee,
         {| employees := employees s ++ [employee];
            leaveRequests := leaveRequests s;
            departments := departments s |})
  end.
End EmployeeRepository.

Module DepartmentRepository.
Definition getDepartmentById (id : string) (s : Store) : option Department.t :=
  find (id_is Department.id id) (departments s).

(** [create({ name })] then [save]. *)
Definition createDepartment (name new_id today : string) (s : Store)
  : Result Department.t * Store :=
  let department :=
    {| Department.id := new_id; Department.name := name; Department.createdAt := today |} in
  (Ok department,
   {| employees := employees s;
      leaveRequests := leaveRequests s;
      departments := departments s ++ [department] |}).
End DepartmentRepository.

(** [dataSource.transaction(async (manager) => body)]: the body runs on
    the store as the other clients have left it; if it throws, or the
    commit fails, nothing of it is kept and the error is thrown on. *)
Definition transaction {A} (env : Env) (body : Store -> Result A * Store) : M A := fun w =>
  let w1 := emit Transaction w in
  let s := concurrent env (db w1) in
  match tx_error env with
  | Some message => (Throw (QueryFailedError message), set_db s w1)
  | None =>
      match body s with
      | (Ok a, s') => (Ok a, set_db s' w1)
      | (r, _) => (r, set_db s w1)
      end
  end.

(** A read through a repository outside a transaction. *)
Definition query {A} (ev : Event) (read : Store -> A) : M A := fun w =>
  (Ok (read (db w)), emit ev w).

(** ** queue/producer.leaveRequest *)

Module Producer.
(** [sendMessageToQueue(message)] as its callers see it. None of them
    awaits it: the call stops at [await getChannel()] and returns; what
    it has sent by then is nothing. *)
Definition sendMessageToQueue (cfg : Settings) (message : Json) : M unit := fun w =>
  (Ok tt, suspend (PendingSend cfg message) w).

(** The body from [await getChannel()] on, once the channel promise is
    settled. If it is rejected the body throws, into a promise nobody
    handles. Otherwise: [assertQueue], [JSON.stringify(message)], then
    [sendToQueue] with no options, so that the message published carries
    no header. *)
Definition resume (cfg : Settings) (channel : ChannelOutcome) (message : Json) : M unit :=
  match channel with
  | Rejected reason => throw (Error reason)
  | Opened =>
      call (AssertQueue (RABBITMQ_QUEUE_NAME cfg));;
      call (SendToQueue {| pub_queue := RABBITMQ_QUEUE_NAME cfg;
                           pub_content := JSON_stringify message;
                           pub_options := None |})
  end.
End Producer.

(** The event loop comes back to the oldest pending call, whose channel
    promise has settled as [channel]. *)
Definition run_pending (channel : ChannelOutcome) : M unit := fun w =>
  match pending w with
  | [] => (Ok tt, w)
  | PendingSend cfg message :: rest => Producer.resume cfg channel message (set_pending rest w)
  end.

Definition Status_eqb (a b : Status) : bool :=
  match a, b with
  | PENDING, PENDING | APPROVED, APPROVED | REJECTED, REJECTED => true
  | _, _ => false
  end.

Definition duplicate_request : string :=
  "Duplicate request: operation already performed with this idempotency key".

(** ** services/leaveRequest.service *)

Module LeaveRequestService.
Section Service.
Variable cfg : Settings.

Definition IDEMPOTENCY_TTL : Z := 86400.

Definition invalidateDepartmentEmployeeCaches (departmentId : option string) : M unit :=
  if negb (truthy departmentId) then mret tt
  else
    keys ← redis_keys ("departments:" +:+ default EmptyString departmentId +:+ ":employees*");
    if negb (Nat.eqb (List.length keys) 0) then redis_del keys else mret tt.

Definition createLeaveRequest (env : Env) (payload : LeaveRequestInsert)
    (idempotencyKey : string) : M LeaveRequest.t :=
  let idempotencyRedisKey := "idempotency:leaverequest:create:" +:+ idempotencyKey in
  existing ← redis_get idempotencyRedisKey;
  if truthy existing then throw (ConflictError duplicate_request)
  else
    employee ← query (GetEmployeeById (li_employeeId payload))
                     (EmployeeRepository.getEmployeeById (li_employeeId payload));
    match employee with
    | None =>
        throw (NotFoundError ("Employee with ID " +:+ li_employeeId payload +:+ " not found"))
    | Some employee =>
        if li_startDate payload >=? li_endDate payload
        then throw (BadRequestError "End date must be after start date")
        else
          created ← transaction env
                      (LeaveRequestRepository.createRequest payload (fresh_id env));
          redis_setEx idempotencyRedisKey IDEMPOTENCY_TTL
            (JSON_stringify (JObj [("leaveRequestId", JStr (LeaveRequest.id created));
                                   ("createdAt", JStr (now env))]));;
          (if truthy (Some (Employee.departmentId employee))
           then invalidateDepartmentEmployeeCaches (Some (Employee.departmentId employee))
           else mret tt);;
          let leaveDuration := li_endDate payload - li_startDate payload in
          (if leaveDuration <? 2 * 24 * 60 * 60 * 1000
           then Producer.sendMessageToQueue cfg
                  (JObj [("idempotencyKey", JStr idempotencyKey);
                         ("leaveId", JStr (LeaveRequest.id created))])
           else mret tt);;
          mret created
    end.

Definition updateStatus (env : Env) (id : string) (status : Status)
    (idempotencyKey : string) : M (option LeaveRequest.t) :=
  let idempotencyRedisKey := "idempotency:leaverequest:update:" +:+ idempotencyKey in
  existing ← redis_get idempotencyRedisKey;
  if truthy existing then throw (ConflictError duplicate_request)
  else
    existingRequest ← query (FindLeaveById id) (LeaveRequestRepository.findById id);
    match existingRequest with
    | None => throw (Error ("Leave request with ID " +:+ id +:+ " not found"))
    | Some existingRequest =>
        if negb (Status_eqb (LeaveRequest.status existingRequest) PENDING)
        then throw (BadRequestError
                      ("Cannot update leave request status from "
                       +:+ Status_name (LeaveRequest.status existingRequest)
                       +:+ " to " +:+ Status_name status
                       +:+ ". Only PENDING requests can be updated."))
        else
          updated ← transaction env (LeaveRequestRepository.updateStatus id status);
          match updated with
          | None => mret None
          | Some updated =>
              redis_setEx idempotencyRedisKey IDEMPOTENCY_TTL
                (JSON_stringify (JObj [("leaveRequestId", JStr (LeaveRequest.id updated));
                                       ("updatedAt", JStr (now env));
                                       ("status", JStr (Status_name status))]));;
              employee ← query (GetEmployeeById (LeaveRequest.employeeId updated))
                               (EmployeeRepository.getEmployeeById
                                  (LeaveRequest.employeeId updated));
              (if truthy (Employee.departmentId <$> employee)
               then invalidateDepartmentEmployeeCaches (Employee.departmentId <$> employee)
               else mret tt);;
              mret (Some updated)
          end
    end.

Definition deleteLeaveRequest (env : Env) (id : string) (idempotencyKey : string) : M unit :=
  let idempotencyRedisKey := "idempotency:leaverequest:delete:" +:+ idempotencyKey in
  existing ← redis_get idempotencyRedisKey;
  if truthy existing then throw (Error duplicate_request)
  else
    existingRequest ← query (FindLeaveById id) (LeaveRequestRepository.findById id);
    match existingRequest with
    | None => throw (Error ("Leave request with ID " +:+ id +:+ " not found"))
    | Some existingRequest =>
        transaction env (LeaveRequestRepository.deleteRequest id);;
        let employeeId := LeaveRequest.employeeId existingRequest in
        redis_setEx idempotencyRedisKey IDEMPOTENCY_TTL
          (JSON_stringify (JObj [("leaveRequestId", JStr id);
                                 ("deletedAt", JStr (now env))]));;
        if truthy (Some employeeId)
        then
          employee ← query (GetEmployeeById employeeId)
                           (EmployeeRepository.getEmployeeById employeeId);
          if truthy (Employee.departmentId <$> employee)
          then invalidateDepartmentEmployeeCaches (Employee.departmentId <$> employee)
          else mret tt
        else mret tt
    end.
End Service.
End LeaveRequestService.

(** What [listEmployees] returns: the parsed cache entry, or the rows it
    has just read. *)
Inductive AllEmployees : Type :=
  | CachedList (parsed : Json)
  | LoadedList (rows : list Employee.t).

(** ** services/employee.service *)

Module EmployeeService.
Definition IDEMPOTENCY_TTL : Z := 86400.

Definition invalidateDepartmentEmployeeCaches (departmentId : option string) : M unit :=
  if negb (truthy departmentId) then mret tt
  else
    keys ← redis_keys ("departments:" +:+ default EmptyString departmentId +:+ ":employees*");
    if negb (Nat.eqb (List.length keys) 0) then redis_del keys else mret tt.

Definition createEmployee (env : Env) (employeeInfo : EmployeeInsert)
    (idempotencyKey : string) : M Employee.t :=
  let idempotencyRedisKey := "idempotency:employee:" +:+ idempotencyKey in
  existing ← redis_get idempotencyRedisKey;
  if truthy existing then throw (ConflictError duplicate_request)
  else
    (if truthy (ei_departmentId employeeInfo)
     then
       let departmentId := default EmptyString (ei_departmentId employeeInfo) in
       department ← query (GetDepartmentById departmentId)
                          (DepartmentRepository.getDepartmentById departmentId);
       match department with
       | None => throw (NotFoundError ("Department with ID " +:+ departmentId +:+ " not found"))
       | Some _ => mret tt
       end
     else mret tt);;
    if negb (RegExp_test emailRegex (ei_email employeeInfo))
    then throw (Error "Invalid email format")
    else
      existingEmployee ← query (GetEmployeeByEmail (ei_email employeeInfo))
                               (EmployeeRepository.getEmployeeByEmail (ei_email employeeInfo));
      match existingEmployee with
      | Some _ =>
          throw (ConflictError ("Employee with email " +:+ ei_email employeeInfo
                                +:+ " already exists"))
      | None =>
          created ← transaction env
                      (EmployeeRepository.createEmployee employeeInfo (fresh_id env) (now env));
          redis_setEx idempotencyRedisKey IDEMPOTENCY_TTL
            (JSON_stringify (JObj [("employeeId", JStr (Employee.id created));
                                   ("createdAt", JStr (now env))]));;
          (if truthy (Some (Employee.departmentId created))
           then invalidateDepartmentEmployeeCaches (Some (Employee.departmentId created))
           else mret tt);;
          mret created
      end.

Definition CACHE_TTL : Z := 60.

Definition listEmployees (JSON_parse : string -> option Json) : M AllEmployees :=
  let cacheKey := "employees:all" in
  cached ← redis_get cacheKey;
  if truthy cached
  then match JSON_parse (default EmptyString cached) with
       | Some v => mret (CachedList v)
       | None => throw SyntaxError
       end
  else
    employees ← query GetAllEmployees EmployeeRepository.getAllEmployees;
    redis_setEx cacheKey CACHE_TTL (JSON_stringify (JArr (map Employee.toJSON employees)));;
    mret (LoadedList employees).
End EmployeeService.

(** ** services/department.service *)

Record PaginatedResponse : Type :=
  { data : list Employee.t; count : Z; page : number; limit : number }.

(** A number in a document: its text, and [null] when it is not finite. *)
Definition json_number (Number_toString : number -> string) (x : number) : Json :=
  if number_finite x then JNumber (Number_toString x) else JNull.

Definition PaginatedResponse_toJSON (Number_toString : number -> string)
    (r : PaginatedResponse) : Json :=
  JObj [("data", JArr (map Employee.toJSON (data r)));
        ("count", JNum (count r));
        ("page", json_number Number_toString (page r));
        ("limit", json_number Number_toString (limit r))].

(** The index [Array.prototype.slice] makes of an argument: counted from
    the end when negative, and kept within the array. *)
Definition relative_index (len : Z) (i : IntegerOrInfinity) : Z :=
  match i with
  | NegInfinity => 0
  | Integer z => if z <? 0 then Z.max (len + z) 0 else Z.min z len
  | PosInfinity => len
  end.

(** [Array.prototype.slice(start, end)] *)
Definition slice {A} (l : list A) (start final : number) : list A :=
  let len := Z.of_nat (List.length l) in
  let k := relative_index len (ToIntegerOrInfinity start) in
  let e := relative_index len (ToIntegerOrInfinity final) in
  take (Z.to_nat (e - k)) (drop (Z.to_nat k) l).

(** What [listEmployeesInDepartment] returns: the parsed cache entry, or
    the response it has just computed. *)
Inductive Listing : Type :=
  | FromCache (parsed : Json)
  | Computed (response : PaginatedResponse).

Module DepartmentService.
Section Service.
(** [JSON.parse] and [Number::toString], whose last digit the language
    leaves to the implementation, are parameters. *)
Variable JSON_parse : string -> option Json.
Variable Number_toString : number -> string.

Definition CACHE_TTL : Z := 60.

(** [page] and [limit] are the numbers of the query, which nothing
    checks; a parameter that is left out takes its default. *)
Definition listEmployeesInDepartment (departmentId : string) (page limit : option number)
  : M Listing :=
  let page := default (number_of_Z 1) page in
  let limit := default (number_of_Z 10) limit in
  let cacheKey := "departments:" +:+ departmentId +:+ ":employees:page="
                  +:+ Number_toString page +:+ "&limit=" +:+ Number_toString limit in
  cached ← redis_get cacheKey;
  if truthy cached
  then match JSON_parse (default EmptyString cached) with
       | Some v => mret (FromCache v)
       | None => throw SyntaxError
       end
  else
    allEmployees ← query GetAllEmployees EmployeeRepository.getAllEmployees;
    let filtered :=
      List.filter (fun emp => String.eqb (Employee.departmentId emp) departmentId)
                  allEmployees in
    let start := number_mul (number_sub page (number_of_Z 1)) limit in
    let paginated := slice filtered start (number_add start limit) in
    let response := {| data := paginated; count := Z.of_nat (List.length filtered);
                       page := page; limit := limit |} in
    redis_setEx cacheKey CACHE_TTL
      (JSON_stringify (PaginatedResponse_toJSON Number_toString response));;
    mret (Computed response).

Definition IDEMPOTENCY_TTL : Z := 86400.

Definition createDepartment (env : Env) (name idempotencyKey : string) : M Department.t :=
  let idempotencyRedisKey := "idempotency:department:" +:+ idempotencyKey in
  existing ← redis_get idempotencyRedisKey;
  if truthy existing then throw (Error duplicate_request)
  else
    department ← transaction env
                   (DepartmentRepository.createDepartment name (fresh_id env) (now env));
    redis_setEx idempotencyRedisKey IDEMPOTENCY_TTL
      (JSON_stringify (JObj [("departmentId", JStr (Department.id department));
                             ("createdAt", JStr (now env))]));;
    redis_del ["departments:all"];;
    mret department.
End Service.
End DepartmentService.

(** ** worker *)

(** What [+] makes of the retry count: a number, or a string when the
    header holds one. *)
Inductive Primitive : Type :=
  | PNum (n : number)
  | PStr (s : string).

Module Worker.
Section Worker.
(** [JSON.parse], and the conversion of a string to a number that [>]
    makes, are parameters. *)
Variable JSON_parse : string -> option Json.
Variable StringToNumber : string -> number.
Variable cfg : Settings.

(** [JSON.parse(message)], which throws on text that is not JSON. *)
Definition parse (message : string) : M Json :=
  match JSON_parse message with
  | Some v => mret v
  | None => throw SyntaxError
  end.

(** [data.leaveId] and [data.idempotencyKey]. The source declares both
    strings, which nothing checks at run time: reading a property of
    [null] throws; with a value of another shape [updateStatus] is called
    with what is no string, which leaves the model. *)
Definition message_fields (parsed : Json) : M (string * string) :=
  match parsed with
  | JNull => throw TypeError
  | JObj fields =>
      match get_field "leaveId" fields, get_field "idempotencyKey" fields with
      | Some (JStr leaveId), Some (JStr idempotencyKey) => mret (leaveId, idempotencyKey)
      | _, _ => stuck
      end
  | _ => stuck
  end.

(** [(headers["x-retry-count"] || 0) + 1]. A header that is absent,
    [null], [false], zero, [NaN] or the empty string counts as 0. On a
    string, and on an object, which [+] first converts to a string, [+]
    concatenates. *)
Definition next_retry_count (headers : gmap string HeaderValue) : Primitive :=
  let one := number_of_Z 1 in
  match headers !! "x-retry-count" with
  | None | Some HNull | Some (HBool false) => PNum (number_add (number_of_Z 0) one)
  | Some (HNum n) => PNum (number_add (if number_truthy n then n else number_of_Z 0) one)
  | Some (HBool true) => PNum (number_add one one)
  | Some (HStr s) =>
      if String.eqb s EmptyString then PNum (number_add (number_of_Z 0) one)
      else PStr (s +:+ "1")
  | Some (HObject text) => PStr (text +:+ "1")
  end.

(** [retryCount > max], which compares numbers: a string is converted. *)
Definition greater_than (retryCount : Primitive) (max : number) : bool :=
  number_lt max (match retryCount with
                 | PNum n => n
                 | PStr s => StringToNumber s
                 end).

(** The [catch] block of [handleMessage]. In the retry branch the call of
    the producer is not awaited: it returns at once and the message is
    acknowledged before the producer has sent anything. *)
Definition on_failure (msg : Message) : M unit :=
  let headers := default ∅ (headers msg) in
  let retryCount := next_retry_count headers in
  if greater_than retryCount (MAX_RETRIES cfg)
  then
    call (SendToQueue
            {| pub_queue := RABBITMQ_DLQ_NAME cfg;
               pub_content := content msg;
               pub_options :=
                 Some (<["x-original-queue" := HStr (RABBITMQ_QUEUE_NAME cfg)]> headers,
                       true) |});;
    call (Ack msg)
  else
    Producer.sendMessageToQueue cfg (Buffer_toJSON (content msg));;
    call (Ack msg).

(** The [try] block of [handleMessage]. *)
Definition adjudicate (env : Env) (msg : Message) : M unit :=
  let message := content msg in
  parsed ← parse message;
  fields ← message_fields parsed;
  LeaveRequestService.updateStatus env fields.1 APPROVED fields.2;;
  call (Ack msg).

Definition handleMessage (env : Env) (msg : option Message) : M unit :=
  match msg with
  | None => mret tt
  | Some msg => try_catch (adjudicate env msg) (fun _ => on_failure msg)
  end.
End Worker.
End Worker.

(** ** middlewares/idempotency.security.middleware *)

Definition in_range (lo hi : ascii) (c : N) : bool :=
  ((N_of_ascii lo <=? c) && (c <=? N_of_ascii hi))%N.

(** The class [[a-zA-Z0-9_-]]. *)
Definition is_key_char (c : N) : bool :=
  in_range "a" "z" c || in_range "A" "Z" c || in_range "0" "9" c
  || N.eqb c (N_of_ascii "_") || N.eqb c (N_of_ascii "-").

(** [r{n}] and [r{0,n}]. *)
Fixpoint repeat_exact (n : nat) (r : regex) : regex :=
  match n with
  | O => Eps
  | S n' => Seq r (repeat_exact n' r)
  end.

Fixpoint repeat_upto (n : nat) (r : regex) : regex :=
  match n with
  | O => Eps
  | S n' => Alt Eps (Seq r (repeat_upto n' r))
  end.

(** [/^[a-zA-Z0-9_-]{8,64}$/] *)
Definition idempotencyKeyRegex : regex :=
  Seq (repeat_exact 8 (Class is_key_char)) (repeat_upto 56 (Class is_key_char)).

Definition key_format_message : string :=
  "Idempotency-Key must be 8-64 characters long and contain only alphanumeric characters, hyphens, and underscores".

(** [expressAuthentication(request, securityName)]; [header] is
    [request.header("Idempotency-Key")]. *)
Definition expressAuthentication (header : option string) (securityName : string)
  : Result string :=
  if String.eqb securityName "idempotency"
  then
    if negb (truthy header) then Throw (BadRequestError "Idempotency-Key header is required")
    else
      let idempotencyKey := default EmptyString header in
      if negb (RegExp_test idempotencyKeyRegex idempotencyKey)
      then Throw (BadRequestError key_format_message)
      else Ok idempotencyKey
  else Throw (Error "Unknown security scheme").

(** ** The error handler *)

Record ErrorResponse : Type := { er_message : string; er_statusCode : Z }.

(** [errorHandler(err, req, res, next)]: what it answers. An [AppError]
    is answered with its own message and status, a [QueryFailedError]
    with its message and 400, anything else with 500 and no detail. *)
Definition errorHandler (err : AppError) : ErrorResponse :=
  match err with
  | ConflictError m | NotFoundError m | BadRequestError m =>
      {| er_message := m; er_statusCode := statusCode err |}
  | QueryFailedError m =>
      {| er_message := if truthy (Some m) then m else "Database query failed";
         er_statusCode := 400 |}
  | Error _ | SyntaxError | TypeError =>
      {| er_message := "Internal Server Error"; er_statusCode := 500 |}
  end.

(** ** Notions used in the statements *)

(** The messages among a list of calls. *)
Fixpoint publications (evs : list Event) : list Publication :=
  match evs with
  | [] => []
  | SendToQueue p :: rest => p :: publications rest
  | _ :: rest => publications rest
  end.

(** The text before the star in the pattern the services build for a
    department. *)
Definition employees_prefix (departmentId : string) : string :=
  "departments:" +:+ departmentId +:+ ":employees".

(** The keys of [m] that the department's pattern selects. *)
Definition department_keys (departmentId : string) (m : gmap string (string * Z)) : list string :=
  filter (fun k => glob_match (employees_prefix departmentId +:+ "*") k = true)
         (map fst (map_to_list m)).

(** The world after a department's cached pages have been looked up and
    deleted. *)
Definition after_invalidate (departmentId : string) (w : World) : World :=
  let pattern := "departments:" +:+ departmentId +:+ ":employees*" in
  let keys := department_keys departmentId (redis w) in
  match keys with
  | [] => emit (RedisKeys pattern) w
  | _ :: _ => emit (RedisDel keys) (set_redis (foldr delete (redis w) keys) (emit (RedisKeys pattern) w))
  end.

(** No key of the department's prefix is in Redis. *)
Definition department_cache_absent (departmentId : string) (w : World) : Prop :=
  forall rest, redis w !! (employees_prefix departmentId +:+ rest) = None.

(** The message [createLeaveRequest] hands to the producer. *)
Definition approval_message (idempotencyKey leaveId : string) : Json :=
  JObj [("idempotencyKey", JStr idempotencyKey); ("leaveId", JStr leaveId)].


(** The employees of a department, in the order of the store. *)
Definition employees_of (departmentId : string) (s : Store) : list Employee.t :=
  List.filter (fun emp => String.eqb (Employee.departmentId emp) departmentId) (employees s).

(** The cache key of one page of a department's employees. *)
Definition page_key (Number_toString : number -> string) (departmentId : string)
    (page limit : number) : string :=
  "departments:" +:+ departmentId +:+ ":employees:page=" +:+ Number_toString page
  +:+ "&limit=" +:+ Number_toString limit.


(** ... and when they are not: the call of the producer it leaves
    pending, and what that call publishes once it has a channel: the
    producer serialises the buffer it is handed and sends it without
    options. *)
Definition republish (cfg : Settings) (msg : Message) : Pending :=
  PendingSend cfg (Buffer_toJSON (content msg)).

Definition republished (cfg : Settings) (msg : Message) : Publication :=
  {| pub_queue := RABBITMQ_QUEUE_NAME cfg;
     pub_content := JSON_stringify (Buffer_toJSON (content msg));
     pub_options := None |}.

(** The message a consumer receives for a publication. *)
Definition delivered (p : Publication) : Message :=
  {| content := pub_content p; headers := fst <$> pub_options p |}.

(** ** Notions used in the proofs about numbers

    [binary_round] shifts the mantissa to the exponent of the result,
    keeping track of what the shift loses, and rounds. *)

Definition exact_record (m : Z) : shr_record := {| shr_m := m; shr_r := false; shr_s := false |}.

(** The mantissa brought to the exponent [T], with what the shift lost. *)
Definition at_exponent (M e T : Z) : shr_record :=
  if T <? e then exact_record (M * 2 ^ (e - T))
  else Nat.iter (Z.to_nat (T - e)) shr_1 (exact_record M).

(** What [binary_round_aux] does once the mantissa is at its exponent. *)
Definition finish (s : bool) (r : shr_record) (e : Z) : spec_float :=
  let '(mrs, e') :=
    shr_fexp prec emax (round_nearest_even (shr_m r) (loc_of_shr_record r)) e loc_Exact in
  match shr_m mrs with
  | Z0 => S754_zero s
  | Zpos m => if e' <=? emax - prec then S754_finite s m e' else S754_infinity s
  | _ => S754_nan
  end.

(** The exponent of the result. *)
Definition target (M : positive) (e : Z) : Z := fexp prec emax (Zpos (digits2_pos M) + e).

(** [x] is the non-negative integer [v], in canonical form. *)
Definition natural (x : number) (v : Z) : Prop :=
  match x with
  | S754_zero false => v = 0
  | S754_finite false m e =>
      2 ^ 52 <= Zpos m < 2 ^ 53 /\ -52 <= e <= 971 /\ Zpos m * 2 ^ (e + 52) = v * 2 ^ 52
  | _ => False
  end.

(** What the arithmetic of the numbers makes of a non-negative integer
    [v]: [v] itself below two to the 53, and something at least that
    large from there on. *)
Definition approximates (x : number) (v : Z) : Prop :=
  (v < 2 ^ 53 /\ natural x v)
  \/ (2 ^ 53 <= v
      /\ (x = S754_infinity false \/ exists v', natural x v' /\ 2 ^ 53 <= v')).

(** ** Sample data *)

Definition one_day : Z := 24 * 60 * 60 * 1000.

Definition alice : Employee.t :=
  {| Employee.id := "e-1"; Employee.name := "Alice"; Employee.email := "alice@example.com";
     Employee.departmentId := "d-1";
     Employee.updatedAt := "2025-01-01T00:00:00.000Z";
     Employee.createdAt := "2025-01-01T00:00:00.000Z" |}.

Definition bob : Employee.t :=
  {| Employee.id := "e-2"; Employee.name := "Bob"; Employee.email := "bob@example.com";
     Employee.departmentId := "d-1";
     Employee.updatedAt := "2025-01-02T00:00:00.000Z";
     Employee.createdAt := "2025-01-02T00:00:00.000Z" |}.

Definition hr : Department.t :=
  {| Department.id := "d-1"; Department.name := "HR";
     Department.createdAt := "2025-01-01T00:00:00.000Z" |}.

(** Alice's leave of one day, in the given status. *)
Definition leave_1 (status : Status) : LeaveRequest.t :=
  {| LeaveRequest.id := "l-1"; LeaveRequest.employeeId := "e-1";
     LeaveRequest.startDate := 0; LeaveRequest.endDate := one_day;
     LeaveRequest.status := status |}.

Definition store_1 (status : Status) : Store :=
  {| employees := [alice; bob]; leaveRequests := [leave_1 status]; departments := [hr] |}.

(** A world with the given cache, that store and no call made yet. *)
Definition world_1 (cache : gmap string (string * Z)) (status : Status) : World :=
  {| redis := cache; db := store_1 status; calls := []; pending := [] |}.

Definition page_1_key : string := "departments:d-1:employees:page=1&limit=10".

(** Cached pages of two departments and the list of all the employees. *)
Definition cached_pages : gmap string (string * Z) :=
  {[ page_1_key := ("[]", 60);
     "departments:d-1:employeesWithLeaves:page=1&limit=10" := ("[]", 60);
     "departments:d-2:employees:page=1&limit=10" := ("[]", 60);
     "employees:all" := ("[]", 60) ]}.

(** Nothing fails and nobody else writes. *)
Definition calm : Env :=
  {| tx_error := None; fresh_id := "l-2"; now := "2025-10-05T09:00:00.000Z";
     concurrent := fun s => s |}.

(** The store refuses the transaction. *)
Definition failing : Env :=
  {| tx_error := Some "Database error"; fresh_id := "l-2";
     now := "2025-10-05T09:00:00.000Z"; concurrent := fun s => s |}.

(** Another client deletes every leave request before the transaction runs. *)
Definition racing : Env :=
  {| tx_error := None; fresh_id := "l-2"; now := "2025-10-05T09:00:00.000Z";
     concurrent := fun s => {| employees := employees s; leaveRequests := [];
                               departments := departments s |} |}.


Definition short_leave : LeaveRequestInsert :=
  {| li_employeeId := "e-1"; li_startDate := 0; li_endDate := one_day |}.

Definition long_leave : LeaveRequestInsert :=
  {| li_employeeId := "e-1"; li_startDate := 0; li_endDate := 3 * one_day |}.

(** The row [short_leave] creates under [calm]. *)
Definition leave_2 : LeaveRequest.t :=
  {| LeaveRequest.id := "l-2"; LeaveRequest.employeeId := "e-1";
     LeaveRequest.startDate := 0; LeaveRequest.endDate := one_day;
     LeaveRequest.status := PENDING |}.

(** A new employee who names no department. *)
Definition carol : EmployeeInsert :=
  {| ei_name := "Carol"; ei_email := "carol@example.com"; ei_departmentId := Some EmptyString |}.

(** A [JSON.parse] for the examples: it knows the documents of [table]
    and throws on any other text. *)
Definition parse_table (table : list Json) (text : string) : option Json :=
  find (fun v => String.eqb (JSON_stringify v) text) table.

Definition number_same (x y : number) : bool :=
  match x, y with
  | S754_zero a, S754_zero b | S754_infinity a, S754_infinity b => Bool.eqb a b
  | S754_nan, S754_nan => true
  | S754_finite a m e, S754_finite b m' e' => Bool.eqb a b && Pos.eqb m m' && Z.eqb e e'
  | _, _ => false
  end.

(** A [Number::toString] for the examples: it knows the numbers of
    [table]. *)
Definition number_text (table : list (number * string)) (x : number) : string :=
  default "NaN" (snd <$> find (fun entry => number_same (fst entry) x) table).

(** One half. *)
Definition half : number := S754_finite false 4503599627370496 (-53).

Definition decimal : number -> string :=
  number_text [(number_of_Z 0, "0"); (number_of_Z 1, "1"); (number_of_Z 2, "2");
               (number_of_Z 10, "10"); (number_of_Z (-1), "-1"); (half, "0.5")].

(** A conversion of strings to numbers for the examples: it knows the
    texts of [table], and any other text is no number. *)
Definition to_number (table : list (string * number)) (text : string) : number :=
  default S754_nan (snd <$> find (fun entry => String.eqb (fst entry) text) table).


(** A message that is no JSON, on its sixth delivery. *)
Definition not_json : Message :=
  {| content := "not json"; headers := Some {[ "x-retry-count" := HNum (number_of_Z 5) ]} |}.

(** A message for a leave request that does not exist, on its third delivery. *)
Definition missing_leave_body : string := JSON_stringify (approval_message "key-0009" "l-404").

Definition retried_twice : Message :=
  {| content := missing_leave_body;
     headers := Some {[ "x-retry-count" := HNum (number_of_Z 2) ]} |}.

(** * Properties *)

(** ** Strings and patterns *)

Lemma append_cons (x : ascii) (a b : string) : String x a +:+ b = String x (a +:+ b).
Proof. reflexivity. Qed.

Lemma append_nil (b : string) : EmptyString +:+ b = b.
Proof. reflexivity. Qed.

Lemma append_assoc (a b c : string) : (a +:+ b) +:+ c = a +:+ (b +:+ c).
Proof.
  induction a as [|x a IH]; [reflexivity |].
  by rewrite !append_cons, IH.
Qed.

Lemma glob_literal_app (a b : string) :
  glob_literal (a +:+ b) = glob_literal a && glob_literal b.
Proof.
  induction a as [|x a IH]; [reflexivity |].
  rewrite append_cons. simpl. rewrite IH. by rewrite andb_assoc.
Qed.

Lemma glob_meta_star (c : ascii) : Ascii.eqb c "*" = true -> glob_meta c = true.
Proof. intros H. apply Ascii.eqb_eq in H. by subst c. Qed.

(** A pattern ending in its only star is supported exactly when the text
    before the star is literal. *)
Lemma glob_supported_star (p : string) :
  glob_supported (p +:+ "*") = glob_literal p.
Proof.
  induction p as [|c p IH]; [reflexivity |].
  rewrite append_cons. simpl.
  destruct (Ascii.eqb c "*") eqn:E.
  - rewrite (glob_meta_star _ E). simpl. by destruct p.
  - by rewrite IH.
Qed.

(** On a literal text followed by a star, matching is the prefix test. *)
Lemma glob_match_prefix (p k : string) :
  glob_literal p = true ->
  glob_match (p +:+ "*") k = true <-> exists rest, k = p +:+ rest.
Proof.
  revert k. induction p as [|c p IH]; intros k Hlit.
  - rewrite append_nil. simpl. split; [intros _; by exists k | done].
  - rewrite append_cons. simpl in *.
    apply andb_true_iff in Hlit as [Hc Hp].
    destruct (Ascii.eqb c "*") eqn:E.
    { rewrite (glob_meta_star _ E) in Hc. discriminate. }
    destruct k as [|d k].
    + split; [discriminate | intros [rest Hr]; discriminate].
    + rewrite andb_true_iff, Ascii.eqb_eq, (IH k Hp). split.
      * intros [-> [rest ->]]. by exists rest.
      * intros [rest Hr]. rewrite append_cons in Hr. injection Hr as -> ->.
        split; [done | by exists rest].
Qed.

Lemma employees_pattern (departmentId : string) :
  "departments:" +:+ departmentId +:+ ":employees*" = employees_prefix departmentId +:+ "*".
Proof.
  unfold employees_prefix. by rewrite !append_assoc.
Qed.

Lemma employees_prefix_literal (departmentId : string) :
  glob_literal (employees_prefix departmentId) = glob_literal departmentId.
Proof.
  unfold employees_prefix.
  rewrite (glob_literal_app "departments:"), glob_literal_app.
  change (glob_literal "departments:") with true.
  change (glob_literal ":employees") with true.
  by rewrite andb_true_r.
Qed.

(** ** The Redis client *)

Lemma elem_of_keys (m : gmap string (string * Z)) (k : string) :
  k ∈ map fst (map_to_list m) <-> is_Some (m !! k).
Proof.
  rewrite list_elem_of_In, in_map_iff. split.
  - intros [[k' v] [<- Hin]]. apply list_elem_of_In, elem_of_map_to_list in Hin. by exists v.
  - intros [v Hv]. exists (k, v). split; [done |].
    by apply list_elem_of_In, elem_of_map_to_list.
Qed.

Lemma elem_of_department_keys (departmentId : string) (m : gmap string (string * Z)) (k : string) :
  glob_literal departmentId = true ->
  k ∈ department_keys departmentId m
  <-> (exists rest, k = employees_prefix departmentId +:+ rest) /\ is_Some (m !! k).
Proof.
  intros Hlit. unfold department_keys.
  rewrite list_elem_of_filter, elem_of_keys, glob_match_prefix; [done |].
  by rewrite employees_prefix_literal.
Qed.

(** Deleting the selected keys leaves none under the prefix and touches no other. *)
Lemma department_keys_deleted (departmentId : string) (m : gmap string (string * Z)) (rest : string) :
  glob_literal departmentId = true ->
  foldr delete m (department_keys departmentId m) !! (employees_prefix departmentId +:+ rest) = None.
Proof.
  intros Hlit.
  destruct (m !! (employees_prefix departmentId +:+ rest)) as [v|] eqn:Hm.
  - apply lookup_foldr_delete, elem_of_department_keys; [done |].
    split; [by exists rest | by exists v].
  - rewrite lookup_foldr_delete_not_elem_of; [done |].
    intros Hin. apply elem_of_department_keys in Hin as [_ [v Hv]]; [congruence | done].
Qed.

Lemma department_keys_kept (departmentId : string) (m : gmap string (string * Z)) (k : string) :
  glob_literal departmentId = true ->
  (forall rest, k <> employees_prefix departmentId +:+ rest) ->
  foldr delete m (department_keys departmentId m) !! k = m !! k.
Proof.
  intros Hlit Hk. apply lookup_foldr_delete_not_elem_of.
  intros Hin. apply elem_of_department_keys in Hin as [[rest ->] _]; [| done].
  by apply (Hk rest).
Qed.

Lemma department_keys_nil (departmentId : string) (m : gmap string (string * Z)) (rest : string) :
  glob_literal departmentId = true ->
  department_keys departmentId m = [] ->
  m !! (employees_prefix departmentId +:+ rest) = None.
Proof.
  intros Hlit Hnil.
  destruct (m !! (employees_prefix departmentId +:+ rest)) as [v|] eqn:Hm; [| done].
  assert (employees_prefix departmentId +:+ rest ∈ department_keys departmentId m) as Hin.
  { apply elem_of_department_keys; [done |]. split; [by exists rest | by exists v]. }
  rewrite Hnil in Hin. by apply elem_of_nil in Hin.
Qed.

(** ** Running the monad *)

#[local] Arguments JSON_stringify : simpl never.
#[local] Arguments transaction : simpl never.
#[local] Arguments Producer.sendMessageToQueue : simpl never.
#[local] Arguments LeaveRequestService.invalidateDepartmentEmployeeCaches : simpl never.
#[local] Arguments EmployeeService.invalidateDepartmentEmployeeCaches : simpl never.
#[local] Arguments regex_test : simpl never.
#[local] Arguments RegExp_test : simpl never.
#[local] Arguments glob_supported : simpl never.
#[local] Arguments glob_match : simpl never.

Ltac unfold_M :=
  unfold mbind, M_bind, mret, M_ret, throw, stuck, call, query,
    redis_get, redis_setEx, redis_keys, redis_del, try_catch in *.

(** Split a run given as an equation [H] into its straight-line paths. *)
Ltac run_in H := unfold_M; cbn in H; repeat (case_match; simplify_eq /=).

Lemma transaction_fails {A} (env : Env) (body : Store -> Result A * Store) (w : World)
    (message : string) :
  tx_error env = Some message ->
  transaction env body w
  = (Throw (QueryFailedError message), set_db (concurrent env (db w)) (emit Transaction w)).
Proof. intros H. unfold transaction. by rewrite H. Qed.

Lemma transaction_commits {A} (env : Env) (body : Store -> Result A * Store) (w : World)
    (a : A) (s' : Store) :
  tx_error env = None ->
  body (concurrent env (db w)) = (Ok a, s') ->
  transaction env body w = (Ok a, set_db s' (emit Transaction w)).
Proof. intros H Hb. unfold transaction. simpl. by rewrite H, Hb. Qed.

Lemma transaction_Ok {A} (env : Env) (body : Store -> Result A * Store) (w w1 : World) (a : A) :
  transaction env body w = (Ok a, w1) ->
  tx_error env = None /\
  exists s', body (concurrent env (db w)) = (Ok a, s') /\ w1 = set_db s' (emit Transaction w).
Proof.
  unfold transaction. simpl. intros H.
  destruct (tx_error env); [discriminate |].
  destruct (body (concurrent env (db w))) as [[a'| |] s'] eqn:Hb; simplify_eq.
  split; [done | by exists s'].
Qed.

Lemma transaction_calls {A} (env : Env) (body : Store -> Result A * Store) (w w1 : World)
    (r : Result A) :
  transaction env body w = (r, w1) ->
  calls w1 = (calls w ++ [Transaction])%list /\ redis w1 = redis w.
Proof.
  unfold transaction. simpl. intros H.
  destruct (tx_error env); [by simplify_eq |].
  destruct (body (concurrent env (db w))) as [[a'| |] s']; by simplify_eq.
Qed.

Lemma sendMessageToQueue_run (cfg : Settings) (message : Json) (w : World) :
  Producer.sendMessageToQueue cfg message w = (Ok tt, suspend (PendingSend cfg message) w).
Proof. reflexivity. Qed.


Lemma resume_rejected (cfg : Settings) (reason : string) (message : Json) (w : World) :
  Producer.resume cfg (Rejected reason) message w = (Throw (Error reason), w).
Proof. reflexivity. Qed.


(** ** Cache invalidation *)

Lemma services_invalidate_same :
  EmployeeService.invalidateDepartmentEmployeeCaches
  = LeaveRequestService.invalidateDepartmentEmployeeCaches.
Proof. reflexivity. Qed.

Lemma invalidate_falsy (departmentId : option string) (w : World) :
  truthy departmentId = false ->
  LeaveRequestService.invalidateDepartmentEmployeeCaches departmentId w = (Ok tt, w).
Proof.
  intros H. unfold LeaveRequestService.invalidateDepartmentEmployeeCaches. by rewrite H.
Qed.

Lemma invalidate_run (departmentId : string) (w : World) :
  truthy (Some departmentId) = true ->
  LeaveRequestService.invalidateDepartmentEmployeeCaches (Some departmentId) w
  = if glob_literal departmentId then (Ok tt, after_invalidate departmentId w) else (Stuck, w).
Proof.
  intros H. unfold LeaveRequestService.invalidateDepartmentEmployeeCaches. rewrite H.
  unfold_M. simpl.
  rewrite employees_pattern, glob_supported_star, employees_prefix_literal.
  destruct (glob_literal departmentId); [| reflexivity].
  unfold after_invalidate. rewrite employees_pattern.
  fold (department_keys departmentId (redis w)).
  by destruct (department_keys departmentId (redis w)).
Qed.

Lemma invalidate_Ok (departmentId : string) (w w1 : World) (a : unit) :
  truthy (Some departmentId) = true ->
  LeaveRequestService.invalidateDepartmentEmployeeCaches (Some departmentId) w = (Ok a, w1) ->
  glob_literal departmentId = true /\ w1 = after_invalidate departmentId w.
Proof.
  intros H. rewrite (invalidate_run _ _ H).
  destruct (glob_literal departmentId); [| discriminate].
  intros [= _ <-]. done.
Qed.

Lemma after_invalidate_db (departmentId : string) (w : World) :
  db (after_invalidate departmentId w) = db w.
Proof. unfold after_invalidate. by destruct (department_keys _ _). Qed.


(** After the invalidation no key of the department's prefix is left. *)
Lemma after_invalidate_absent (departmentId : string) (w : World) (rest : string) :
  glob_literal departmentId = true ->
  redis (after_invalidate departmentId w) !! (employees_prefix departmentId +:+ rest) = None.
Proof.
  intros Hlit. unfold after_invalidate.
  destruct (department_keys departmentId (redis w)) as [|k ks] eqn:Hk.
  - by apply department_keys_nil.
  - unfold emit, set_redis. cbn [redis]. rewrite <- Hk. by apply department_keys_deleted.
Qed.

(** ... and every other key is as it was. *)
Lemma after_invalidate_other (departmentId : string) (w : World) (k : string) :
  glob_literal departmentId = true ->
  (forall rest, k <> employees_prefix departmentId +:+ rest) ->
  redis (after_invalidate departmentId w) !! k = redis w !! k.
Proof.
  intros Hlit Hk. unfold after_invalidate.
  destruct (department_keys departmentId (redis w)) as [|k0 ks] eqn:Hks; [done |].
  unfold emit, set_redis. cbn [redis]. rewrite <- Hks. by apply department_keys_kept.
Qed.

#[local] Arguments after_invalidate : simpl never.

Lemma publications_app (a b : list Event) :
  publications (a ++ b)%list = (publications a ++ publications b)%list.
Proof. induction a as [|[] a IH]; simpl; by rewrite ?IH. Qed.

(** Turn what is known of the sub-calls of a successful run into the
    worlds they produce. *)
Ltac invert_calls :=
  repeat match goal with
  | H : transaction _ _ _ = (Ok _, _) |- _ =>
      apply transaction_Ok in H as (? & ? & ? & ->)
  | H : LeaveRequestService.invalidateDepartmentEmployeeCaches (Some _) _ = (Ok _, _) |- _ =>
      apply invalidate_Ok in H as [? ->]; [| done]
  | H : EmployeeService.invalidateDepartmentEmployeeCaches (Some _) _ = (Ok _, _) |- _ =>
      rewrite services_invalidate_same in H; apply invalidate_Ok in H as [? ->]; [| done]
  | H : Producer.sendMessageToQueue _ _ _ = _ |- _ =>
      rewrite sendMessageToQueue_run in H; simplify_eq
  end.


(** ** The idempotency guard *)

Lemma createLeaveRequest_duplicate (cfg : Settings) (env : Env) (payload : LeaveRequestInsert)
    (key : string) (w : World) :
  truthy (fst <$> redis w !! ("idempotency:leaverequest:create:" +:+ key)) = true ->
  LeaveRequestService.createLeaveRequest cfg env payload key w
  = (Throw (ConflictError duplicate_request),
     emit (RedisGet ("idempotency:leaverequest:create:" +:+ key)) w).
Proof.
  intros H. unfold LeaveRequestService.createLeaveRequest. unfold_M. cbn. by rewrite H.
Qed.

Lemma updateStatus_duplicate (env : Env) (id : string) (status : Status) (key : string) (w : World) :
  truthy (fst <$> redis w !! ("idempotency:leaverequest:update:" +:+ key)) = true ->
  LeaveRequestService.updateStatus env id status key w
  = (Throw (ConflictError duplicate_request),
     emit (RedisGet ("idempotency:leaverequest:update:" +:+ key)) w).
Proof.
  intros H. unfold LeaveRequestService.updateStatus. unfold_M. cbn. by rewrite H.
Qed.

Lemma createEmployee_duplicate (env : Env) (employeeInfo : EmployeeInsert) (key : string) (w : World) :
  truthy (fst <$> redis w !! ("idempotency:employee:" +:+ key)) = true ->
  EmployeeService.createEmployee env employeeInfo key w
  = (Throw (ConflictError duplicate_request),
     emit (RedisGet ("idempotency:employee:" +:+ key)) w).
Proof.
  intros H. unfold EmployeeService.createEmployee. unfold_M. cbn. by rewrite H.
Qed.

(** The delete path stops as early and touches as little, but what it
    throws is a plain [Error]. *)
Lemma deleteLeaveRequest_duplicate (env : Env) (id key : string) (w : World) :
  truthy (fst <$> redis w !! ("idempotency:leaverequest:delete:" +:+ key)) = true ->
  LeaveRequestService.deleteLeaveRequest env id key w
  = (Throw (Error duplicate_request),
     emit (RedisGet ("idempotency:leaverequest:delete:" +:+ key)) w).
Proof.
  intros H. unfold LeaveRequestService.deleteLeaveRequest. unfold_M. cbn. by rewrite H.
Qed.

(** The record written after a commit is never the empty string, so the
    guard sees it. *)
Lemma JSON_stringify_object_truthy (fields : list (string * Json)) :
  truthy (Some (JSON_stringify (JObj fields))) = true.
Proof. reflexivity. Qed.

(** C2 (the code departs from the claim on the delete path). A
    [deleteLeaveRequest] whose idempotency key already has a record stops
    after the one Redis read, as the claim says: no transaction, no record,
    no invalidation, no message. But it throws a plain [Error], which is
    answered with status 500, where [createLeaveRequest] and [updateStatus]
    throw [ConflictError]. *)
Theorem deleteLeaveRequest_duplicate_plain_error :
  let w := world_1 {[ "idempotency:leaverequest:delete:key-0001" := ("{}", 86400) ]} PENDING in
  LeaveRequestService.deleteLeaveRequest calm "l-1" "key-0001" w
  = (Throw (Error duplicate_request),
     emit (RedisGet "idempotency:leaverequest:delete:key-0001") w)
  /\ statusCode (Error duplicate_request) = 500
  /\ (LeaveRequestService.updateStatus calm "l-1" APPROVED "key-0001"
        (world_1 {[ "idempotency:leaverequest:update:key-0001" := ("{}", 86400) ]} PENDING)).1
     = Throw (ConflictError duplicate_request)
  /\ statusCode (ConflictError duplicate_request) = 409.
Proof.
  intros w. split; [| split; [reflexivity | split; [| reflexivity]]].
  - by apply (deleteLeaveRequest_duplicate calm "l-1" "key-0001" w).
  - by rewrite updateStatus_duplicate.
Qed.

(** ** Creating a leave request *)





(** C5. When the store transaction of [createLeaveRequest] fails, the
    error is thrown to the caller as it is; Redis is left exactly as it
    was (no idempotency record, no invalidation) and the only calls made
    are the guard's read, the employee lookup and the transaction: nothing
    is published and the producer is not called. A retry with the same
    key therefore finds no record. *)
Theorem createLeaveRequest_transaction_fails (cfg : Settings) (env : Env)
    (payload : LeaveRequestInsert) (key : string) (w : World) (employee : Employee.t)
    (message : string) :
  let idempotencyRedisKey := "idempotency:leaverequest:create:" +:+ key in
  truthy (fst <$> redis w !! idempotencyRedisKey) = false ->
  EmployeeRepository.getEmployeeById (li_employeeId payload) (db w) = Some employee ->
  li_startDate payload < li_endDate payload ->
  tx_error env = Some message ->
  exists w',
    LeaveRequestService.createLeaveRequest cfg env payload key w
    = (Throw (QueryFailedError message), w')
    /\ redis w' = redis w
    /\ calls w' = (calls w ++ [RedisGet idempotencyRedisKey;
                               GetEmployeeById (li_employeeId payload);
                               Transaction])%list
    /\ publications (calls w') = publications (calls w)
    /\ pending w' = pending w
    /\ truthy (fst <$> redis w' !! idempotencyRedisKey) = false.
Proof.
  intros k Hfresh Hemp Hdates Htx. subst k.
  unfold LeaveRequestService.createLeaveRequest. unfold_M. cbn.
  rewrite Hfresh. cbn. rewrite Hemp.
  destruct (li_startDate payload >=? li_endDate payload) eqn:Hd; [lia |].
  rewrite (transaction_fails _ _ _ _ Htx). cbn.
  eexists. split; [reflexivity |]. cbn.
  split; [reflexivity |]. split; [by rewrite <- !app_assoc |].
  split; [| split; [reflexivity | exact Hfresh]].
  rewrite !publications_app. cbn. by rewrite !app_nil_r.
Qed.

Lemma createLeaveRequest_transaction_fails_witness :
  let w := world_1 {[ page_1_key := ("[]", 60) ]} PENDING in
  (truthy (fst <$> redis w !! ("idempotency:leaverequest:create:" +:+ "key-0001")) = false
   /\ EmployeeRepository.getEmployeeById (li_employeeId short_leave) (db w) = Some alice
   /\ li_startDate short_leave < li_endDate short_leave
   /\ tx_error failing = Some "Database error")
  /\ exists w',
       LeaveRequestService.createLeaveRequest default_Settings failing short_leave "key-0001" w
       = (Throw (QueryFailedError "Database error"), w')
       /\ redis w' = redis w
       /\ calls w' = (calls w ++ [RedisGet ("idempotency:leaverequest:create:" +:+ "key-0001");
                                  GetEmployeeById (li_employeeId short_leave);
                                  Transaction])%list
       /\ publications (calls w') = publications (calls w)
       /\ pending w' = pending w
       /\ truthy (fst <$> redis w' !! ("idempotency:leaverequest:create:" +:+ "key-0001")) = false.
Proof.
  intros w.
  assert (truthy (fst <$> redis w !! ("idempotency:leaverequest:create:" +:+ "key-0001")) = false)
    as H1 by (vm_compute; reflexivity).
  assert (EmployeeRepository.getEmployeeById (li_employeeId short_leave) (db w) = Some alice)
    as H2 by reflexivity.
  assert (li_startDate short_leave < li_endDate short_leave) as H3 by (vm_compute; reflexivity).
  assert (tx_error failing = Some "Database error") as H4 by reflexivity.
  split; [by repeat split |].
  exact (createLeaveRequest_transaction_fails default_Settings failing short_leave "key-0001" w
           alice "Database error" H1 H2 H3 H4).
Defined.

(** The retry of the failed creation, once the store is back, goes through. *)
Example createLeaveRequest_retry_after_failure :
  let w := world_1 {[ page_1_key := ("[]", 60) ]} PENDING in
  let failed := LeaveRequestService.createLeaveRequest default_Settings failing short_leave "key-0001" w in
  failed.1 = Throw (QueryFailedError "Database error")
  /\ (LeaveRequestService.createLeaveRequest default_Settings calm short_leave "key-0001" failed.2).1
     = Ok leave_2.
Proof. split; vm_compute; reflexivity. Qed.

(** ** Updating the status *)

(** C7. When the transactional update of [updateStatus] returns no row,
    the call returns [null]; Redis is left exactly as it was and the only
    calls made are the guard's read, the lookup of the request and the
    transaction: no record is written, no employee resolved, no key
    invalidated, and nothing is left pending. *)
Theorem updateStatus_no_row (env : Env) (id : string) (status : Status) (key : string)
    (w : World) (existingRequest : LeaveRequest.t) (s' : Store) :
  let idempotencyRedisKey := "idempotency:leaverequest:update:" +:+ key in
  truthy (fst <$> redis w !! idempotencyRedisKey) = false ->
  LeaveRequestRepository.findById id (db w) = Some existingRequest ->
  LeaveRequest.status existingRequest = PENDING ->
  tx_error env = None ->
  LeaveRequestRepository.updateStatus id status (concurrent env (db w)) = (Ok None, s') ->
  exists w',
    LeaveRequestService.updateStatus env id status key w = (Ok None, w')
    /\ redis w' = redis w
    /\ calls w' = (calls w ++ [RedisGet idempotencyRedisKey; FindLeaveById id; Transaction])%list
    /\ pending w' = pending w.
Proof.
  intros k Hfresh Hfind Hpending Htx Hupd. subst k.
  unfold LeaveRequestService.updateStatus. unfold_M. cbn.
  rewrite Hfresh. cbn. rewrite Hfind, Hpending. cbn.
  rewrite (transaction_commits env _ (emit (FindLeaveById id) (emit (RedisGet _) w)) _ _ Htx Hupd).
  cbn.
  eexists. split; [reflexivity |]. cbn.
  split; [reflexivity |]. split; [by rewrite <- !app_assoc | reflexivity].
Qed.

Lemma updateStatus_no_row_witness :
  let w := world_1 {[ page_1_key := ("[]", 60) ]} PENDING in
  let s' := {| employees := [alice; bob]; leaveRequests := []; departments := [hr] |} in
  (truthy (fst <$> redis w !! ("idempotency:leaverequest:update:" +:+ "key-0001")) = false
   /\ LeaveRequestRepository.findById "l-1" (db w) = Some (leave_1 PENDING)
   /\ LeaveRequest.status (leave_1 PENDING) = PENDING
   /\ tx_error racing = None
   /\ LeaveRequestRepository.updateStatus "l-1" APPROVED (concurrent racing (db w)) = (Ok None, s'))
  /\ exists w',
       LeaveRequestService.updateStatus racing "l-1" APPROVED "key-0001" w = (Ok None, w')
       /\ redis w' = redis w
       /\ calls w' = (calls w ++ [RedisGet ("idempotency:leaverequest:update:" +:+ "key-0001");
                                  FindLeaveById "l-1"; Transaction])%list
       /\ pending w' = pending w.
Proof.
  intros w s'.
  assert (truthy (fst <$> redis w !! ("idempotency:leaverequest:update:" +:+ "key-0001")) = false)
    as H1 by (vm_compute; reflexivity).
  assert (LeaveRequestRepository.findById "l-1" (db w) = Some (leave_1 PENDING)) as H2 by reflexivity.
  assert (LeaveRequest.status (leave_1 PENDING) = PENDING) as H3 by reflexivity.
  assert (tx_error racing = None) as H4 by reflexivity.
  assert (LeaveRequestRepository.updateStatus "l-1" APPROVED (concurrent racing (db w)) = (Ok None, s'))
    as H5 by reflexivity.
  split; [by repeat split |].
  exact (updateStatus_no_row racing "l-1" APPROVED "key-0001" w (leave_1 PENDING) s' H1 H2 H3 H4 H5).
Defined.






Lemma invalidate_db (departmentId : option string) (w w' : World) (r : Result unit) :
  LeaveRequestService.invalidateDepartmentEmployeeCaches departmentId w = (r, w') ->
  db w' = db w.
Proof.
  destruct (truthy departmentId) eqn:Ht.
  - destruct departmentId as [d|]; [| discriminate].
    rewrite (invalidate_run _ _ Ht). destruct (glob_literal d); intros [= _ <-]; [| done].
    apply after_invalidate_db.
  - rewrite (invalidate_falsy _ _ Ht). by intros [= _ <-].
Qed.










(** ** Cache invalidation by the mutations *)

Lemma createEmployee_invalidates (env : Env) (employeeInfo : EmployeeInsert) (key : string)
    (w w' : World) (created : Employee.t) :
  EmployeeService.createEmployee env employeeInfo key w = (Ok created, w') ->
  truthy (Some (Employee.departmentId created)) = true ->
  department_cache_absent (Employee.departmentId created) w'.
Proof.
  intros H Hd. unfold EmployeeService.createEmployee in H. run_in H.
  all: invert_calls.
  all: try (intros rest; by apply after_invalidate_absent).
  all: try congruence.
Qed.

Lemma createLeaveRequest_invalidates (cfg : Settings) (env : Env) (payload : LeaveRequestInsert)
    (key : string) (w w' : World) (created : LeaveRequest.t) (employee : Employee.t) :
  LeaveRequestService.createLeaveRequest cfg env payload key w = (Ok created, w') ->
  EmployeeRepository.getEmployeeById (li_employeeId payload) (db w) = Some employee ->
  truthy (Some (Employee.departmentId employee)) = true ->
  department_cache_absent (Employee.departmentId employee) w'.
Proof.
  intros H He Hd. unfold LeaveRequestService.createLeaveRequest in H. run_in H.
  all: invert_calls.
  all: try (intros rest; simpl; by apply after_invalidate_absent).
  all: try congruence.
Qed.

Lemma updateStatus_invalidates (env : Env) (id : string) (status : Status) (key : string)
    (w w' : World) (updated : LeaveRequest.t) (employee : Employee.t) :
  LeaveRequestService.updateStatus env id status key w = (Ok (Some updated), w') ->
  EmployeeRepository.getEmployeeById (LeaveRequest.employeeId updated) (db w') = Some employee ->
  truthy (Some (Employee.departmentId employee)) = true ->
  department_cache_absent (Employee.departmentId employee) w'.
Proof.
  intros H He Hd. unfold LeaveRequestService.updateStatus in H. run_in H.
  all: match goal with
       | Hi : LeaveRequestService.invalidateDepartmentEmployeeCaches _ _ = _ |- _ =>
           apply invalidate_db in Hi as Hdb; simpl in Hdb; rewrite Hdb in He;
           rewrite He in *; simpl in *
       | _ => rewrite He in *; simpl in *
       end.
  all: invert_calls.
  all: try (intros rest; simpl; by apply after_invalidate_absent).
  all: try congruence.
Qed.

Lemma deleteLeaveRequest_invalidates (env : Env) (id key : string) (w w' : World)
    (request : LeaveRequest.t) (employee : Employee.t) :
  LeaveRequestService.deleteLeaveRequest env id key w = (Ok tt, w') ->
  LeaveRequestRepository.findById id (db w) = Some request ->
  truthy (Some (LeaveRequest.employeeId request)) = true ->
  EmployeeRepository.getEmployeeById (LeaveRequest.employeeId request) (db w') = Some employee ->
  truthy (Some (Employee.departmentId employee)) = true ->
  department_cache_absent (Employee.departmentId employee) w'.
Proof.
  intros H Hr Hi He Hd. unfold LeaveRequestService.deleteLeaveRequest in H. run_in H.
  all: try congruence.
  all: match goal with
       | Hi : LeaveRequestService.invalidateDepartmentEmployeeCaches _ _ = _ |- _ =>
           apply invalidate_db in Hi as Hdb; simpl in Hdb; rewrite Hdb in He;
           rewrite He in *; simpl in *
       | _ => simpl in He; rewrite He in *; simpl in *
       end.
  all: invert_calls.
  all: try (intros rest; simpl; by apply after_invalidate_absent).
  all: try congruence.
Qed.

Lemma after_invalidate_calls_exact (departmentId : string) (w : World) :
  calls (after_invalidate departmentId w)
  = (calls w ++ RedisKeys ("departments:" +:+ departmentId +:+ ":employees*")
       :: match department_keys departmentId (redis w) with
          | [] => []
          | keys => [RedisDel keys]
          end)%list.
Proof.
  unfold after_invalidate. destruct (department_keys _ _); simpl; [done |].
  by rewrite <- app_assoc.
Qed.

(** C6. [invalidateDepartmentEmployeeCaches] (the same in both services)
    does nothing when the department id is empty or absent. Otherwise it
    asks Redis for the keys matching [departments:<id>:employees*], which
    for an id without pattern characters, as a UUID is, are exactly the
    keys present under that prefix, and, if there are any, deletes them in
    one call: afterwards no key under the prefix is left and every other
    key is as before. Hence after a successful employee creation, leave
    creation, status update or leave deletion no key under the prefix of
    the employee's department is in the cache. *)
Theorem department_caches_invalidated :
  (forall departmentId w,
      truthy departmentId = false ->
      LeaveRequestService.invalidateDepartmentEmployeeCaches departmentId w = (Ok tt, w)
      /\ EmployeeService.invalidateDepartmentEmployeeCaches departmentId w = (Ok tt, w))
  /\ (forall departmentId w,
         truthy (Some departmentId) = true ->
         glob_literal departmentId = true ->
         let pattern := "departments:" +:+ departmentId +:+ ":employees*" in
         let keys := department_keys departmentId (redis w) in
         exists w',
           LeaveRequestService.invalidateDepartmentEmployeeCaches (Some departmentId) w = (Ok tt, w')
           /\ EmployeeService.invalidateDepartmentEmployeeCaches (Some departmentId) w = (Ok tt, w')
           /\ (forall k, k ∈ keys <-> (exists rest, k = employees_prefix departmentId +:+ rest)
                                      /\ is_Some (redis w !! k))
           /\ calls w' = (calls w ++ RedisKeys pattern
                            :: match keys with [] => [] | _ => [RedisDel keys] end)%list
           /\ department_cache_absent departmentId w'
           /\ (forall k, (forall rest, k <> employees_prefix departmentId +:+ rest) ->
                         redis w' !! k = redis w !! k))
  /\ (forall env employeeInfo key w w' created,
         EmployeeService.createEmployee env employeeInfo key w = (Ok created, w') ->
         truthy (Some (Employee.departmentId created)) = true ->
         department_cache_absent (Employee.departmentId created) w')
  /\ (forall cfg env payload key w w' created employee,
         LeaveRequestService.createLeaveRequest cfg env payload key w = (Ok created, w') ->
         EmployeeRepository.getEmployeeById (li_employeeId payload) (db w) = Some employee ->
         truthy (Some (Employee.departmentId employee)) = true ->
         department_cache_absent (Employee.departmentId employee) w')
  /\ (forall env id status key w w' updated employee,
         LeaveRequestService.updateStatus env id status key w = (Ok (Some updated), w') ->
         EmployeeRepository.getEmployeeById (LeaveRequest.employeeId updated) (db w') = Some employee ->
         truthy (Some (Employee.departmentId employee)) = true ->
         department_cache_absent (Employee.departmentId employee) w')
  /\ (forall env id key w w' request employee,
         LeaveRequestService.deleteLeaveRequest env id key w = (Ok tt, w') ->
         LeaveRequestRepository.findById id (db w) = Some request ->
         truthy (Some (LeaveRequest.employeeId request)) = true ->
         EmployeeRepository.getEmployeeById (LeaveRequest.employeeId request) (db w') = Some employee ->
         truthy (Some (Employee.departmentId employee)) = true ->
         department_cache_absent (Employee.departmentId employee) w').
Proof.
  split; [| split; [| split; [| split; [| split]]]].
  - intros departmentId w Ht. split; [by apply invalidate_falsy |].
    rewrite services_invalidate_same. by apply invalidate_falsy.
  - intros departmentId w Ht Hlit pattern keys.
    exists (after_invalidate departmentId w).
    rewrite services_invalidate_same, (invalidate_run _ _ Ht), Hlit.
    split; [reflexivity |]. split; [reflexivity |].
    split; [intros k; by apply elem_of_department_keys |].
    split.
    { subst pattern keys. rewrite after_invalidate_calls_exact.
      by destruct (department_keys departmentId (redis w)). }
    split; [intros rest; by apply after_invalidate_absent |].
    intros k Hk. by apply after_invalidate_other.
  - intros. by eapply createEmployee_invalidates.
  - intros. by eapply createLeaveRequest_invalidates.
  - intros. by eapply updateStatus_invalidates.
  - intros. by eapply deleteLeaveRequest_invalidates.
Qed.

Lemma department_caches_invalidated_witness :
  let w := world_1 cached_pages PENDING in
  let run := LeaveRequestService.createLeaveRequest default_Settings calm short_leave "key-0001" w in
  (truthy (Some "d-1") = true /\ glob_literal "d-1" = true
   /\ run = (Ok leave_2, run.2)
   /\ EmployeeRepository.getEmployeeById (li_employeeId short_leave) (db w) = Some alice
   /\ truthy (Some (Employee.departmentId alice)) = true)
  /\ (exists w',
         LeaveRequestService.invalidateDepartmentEmployeeCaches (Some "d-1") w = (Ok tt, w')
         /\ department_cache_absent "d-1" w'
         /\ redis w' !! "departments:d-2:employees:page=1&limit=10" = Some ("[]", 60)
         /\ redis w' !! "employees:all" = Some ("[]", 60))
  /\ department_cache_absent (Employee.departmentId alice) run.2.
Proof.
  intros w run.
  assert (truthy (Some "d-1") = true) as H1 by reflexivity.
  assert (glob_literal "d-1" = true) as H2 by reflexivity.
  assert (run = (Ok leave_2, run.2)) as H3 by (vm_compute; reflexivity).
  assert (EmployeeRepository.getEmployeeById (li_employeeId short_leave) (db w) = Some alice)
    as H4 by reflexivity.
  assert (truthy (Some (Employee.departmentId alice)) = true) as H5 by reflexivity.
  split; [exact (conj H1 (conj H2 (conj H3 (conj H4 H5)))) |]. split.
  - destruct (proj1 (proj2 department_caches_invalidated) "d-1" w H1 H2)
      as (w' & Hrun & _ & _ & _ & Habsent & Hother).
    exists w'. split; [exact Hrun |]. split; [exact Habsent |].
    split; (rewrite Hother; [vm_compute; reflexivity |]); intros rest; discriminate.
  - exact (proj1 (proj2 (proj2 (proj2 department_caches_invalidated)))
             default_Settings calm short_leave "key-0001" w run.2 leave_2 alice H3 H4 H5).
Defined.

(** ** Creating an employee *)

Lemma transaction_result {A} (env : Env) (body : Store -> Result A * Store) (w w1 : World)
    (r : Result A) :
  transaction env body w = (r, w1) ->
  calls w1 = (calls w ++ [Transaction])%list
  /\ ((exists message, tx_error env = Some message /\ r = Throw (QueryFailedError message))
      \/ (tx_error env = None /\ r = (body (concurrent env (db w))).1)).
Proof.
  unfold transaction. simpl. intros H.
  destruct (tx_error env); [simplify_eq; eauto |].
  destruct (body (concurrent env (db w))) as [[a'| |] s']; simplify_eq; eauto.
Qed.

Lemma repository_createEmployee_never_NotFound (employeeInfo : EmployeeInsert)
    (id today : string) (s : Store) (m : string) :
  (EmployeeRepository.createEmployee employeeInfo id today s).1 <> Throw (NotFoundError m).
Proof.
  unfold EmployeeRepository.createEmployee.
  destruct (ei_departmentId employeeInfo); [| done]. by destruct (existsb _ _).
Qed.

Lemma repository_createEmployee_department (employeeInfo : EmployeeInsert)
    (id today : string) (s s' : Store) (created : Employee.t) :
  EmployeeRepository.createEmployee employeeInfo id today s = (Ok created, s') ->
  ei_departmentId employeeInfo = Some (Employee.departmentId created).
Proof.
  unfold EmployeeRepository.createEmployee.
  destruct (ei_departmentId employeeInfo); [| done]. destruct (existsb _ _); [done |].
  by intros [= <- _].
Qed.

(** [ev] is none of the listed calls. *)
Ltac not_among :=
  let Hin := fresh "Hin" in
  intros ? Hin;
  repeat (apply elem_of_cons in Hin as [Hin | Hin]; [discriminate |]);
  by apply elem_of_nil in Hin.

(** C9. When the payload's [departmentId] is empty or absent,
    [createEmployee] never looks a department up and never throws
    NotFound; past the idempotency guard it goes on to the e-mail check
    (an ill-formed address is refused with "Invalid email format" after
    the guard's read alone) and, for a well-formed address that no
    employee has, to the transaction. *)
Theorem createEmployee_skips_department_check (env : Env) (employeeInfo : EmployeeInsert)
    (key : string) (w : World) :
  truthy (ei_departmentId employeeInfo) = false ->
  let idempotencyRedisKey := "idempotency:employee:" +:+ key in
  exists r w' new,
    EmployeeService.createEmployee env employeeInfo key w = (r, w')
    /\ calls w' = (calls w ++ new)%list
    /\ (forall i, GetDepartmentById i ∉ new)
    /\ (forall m, r <> Throw (NotFoundError m))
    /\ (truthy (fst <$> redis w !! idempotencyRedisKey) = false ->
        (RegExp_test emailRegex (ei_email employeeInfo) = false ->
         r = Throw (Error "Invalid email format") /\ new = [RedisGet idempotencyRedisKey])
        /\ (RegExp_test emailRegex (ei_email employeeInfo) = true ->
            EmployeeRepository.getEmployeeByEmail (ei_email employeeInfo) (db w) = None ->
            exists rest, new = ([RedisGet idempotencyRedisKey;
                                 GetEmployeeByEmail (ei_email employeeInfo);
                                 Transaction] ++ rest)%list)).
Proof.
  intros Hd k. subst k.
  destruct (truthy (fst <$> redis w !! ("idempotency:employee:" +:+ key))) eqn:Hrec.
  { rewrite (createEmployee_duplicate _ _ _ _ Hrec).
    eexists _, _, [_]. split; [reflexivity |]. split; [reflexivity |].
    split; [not_among |]. split; [done | done]. }
  unfold EmployeeService.createEmployee. unfold_M. cbn. rewrite Hrec, Hd. cbn.
  destruct (RegExp_test emailRegex (ei_email employeeInfo)) eqn:Hre; cbn.
  2: { eexists _, _, [_]. split; [reflexivity |]. split; [reflexivity |].
       split; [not_among |]. split; [done |]. intros _. split; [done | done]. }
  destruct (EmployeeRepository.getEmployeeByEmail (ei_email employeeInfo) (db w)) eqn:Hem.
  { eexists _, _, [_; _]. split; [reflexivity |]. cbn. split; [by rewrite <- app_assoc |].
    split; [not_among |]. split; [done |]. intros _. split; [done | done]. }
  destruct (transaction env _ _) as [r1 w1] eqn:Htx.
  destruct r1 as [created | e |].
  - apply transaction_Ok in Htx as (_ & s' & Hbody & ->).
    apply repository_createEmployee_department in Hbody. rewrite Hbody in Hd.
    cbn in Hd. apply negb_false_iff in Hd. rewrite Hd. cbn.
    eexists _, _, [_; _; _; _]. split; [reflexivity |]. cbn.
    split; [by rewrite <- !app_assoc |].
    split; [not_among |]. split; [done |]. intros _. split; [done |].
    intros _ _. by eexists [_].
  - apply transaction_result in Htx as [Hcalls Hr].
    eexists _, _, [_; _; _]. split; [reflexivity |]. rewrite Hcalls. cbn.
    split; [by rewrite <- !app_assoc |].
    split; [not_among |]. split.
    { intros m ?. simplify_eq. destruct Hr as [(? & _ & ?) | [_ Hr]]; [done |].
      by eapply repository_createEmployee_never_NotFound. }
    intros _. split; [done |]. intros _ _. by exists [].
  - apply transaction_result in Htx as [Hcalls Hr].
    eexists _, _, [_; _; _]. split; [reflexivity |]. rewrite Hcalls. cbn.
    split; [by rewrite <- !app_assoc |].
    split; [not_among |]. split; [done |].
    intros _. split; [done |]. intros _ _. by exists [].
Qed.

Lemma createEmployee_skips_department_check_witness :
  let w := world_1 ∅ PENDING in
  truthy (ei_departmentId carol) = false
  /\ exists r w' new,
       EmployeeService.createEmployee calm carol "key-0003" w = (r, w')
       /\ calls w' = (calls w ++ new)%list
       /\ (forall i, GetDepartmentById i ∉ new)
       /\ (forall m, r <> Throw (NotFoundError m))
       /\ (truthy (fst <$> redis w !! ("idempotency:employee:" +:+ "key-0003")) = false ->
           (RegExp_test emailRegex (ei_email carol) = false ->
            r = Throw (Error "Invalid email format")
            /\ new = [RedisGet ("idempotency:employee:" +:+ "key-0003")])
           /\ (RegExp_test emailRegex (ei_email carol) = true ->
               EmployeeRepository.getEmployeeByEmail (ei_email carol) (db w) = None ->
               exists rest, new = ([RedisGet ("idempotency:employee:" +:+ "key-0003");
                                    GetEmployeeByEmail (ei_email carol);
                                    Transaction] ++ rest)%list)).
Proof.
  intros w.
  assert (truthy (ei_departmentId carol) = false) as H by reflexivity.
  split; [exact H |].
  exact (createEmployee_skips_department_check calm carol "key-0003" w H).
Defined.

(** The employee is created although no department was named, and none was looked up. *)
Example createEmployee_without_department :
  let run := EmployeeService.createEmployee calm carol "key-0003" (world_1 ∅ PENDING) in
  (Employee.departmentId <$> (match run.1 with Ok e => Some e | _ => None end)) = Some EmptyString
  /\ calls run.2
     = [RedisGet "idempotency:employee:key-0003"; GetEmployeeByEmail "carol@example.com";
        Transaction;
        RedisSetEx "idempotency:employee:key-0003" 86400
          (JSON_stringify (JObj [("employeeId", JStr "l-2");
                                 ("createdAt", JStr "2025-10-05T09:00:00.000Z")]))].
Proof. split; vm_compute; reflexivity. Qed.

(** White space is more than the ASCII blanks: an address with a
    no-break space (U+00A0, the bytes 194 and 160) or a line separator
    (U+2028, the bytes 226, 128 and 168) in it is refused. *)
Example createEmployee_unicode_space :
  let no_break_space := String (ascii_of_N 194) (String (ascii_of_N 160) EmptyString) in
  let line_separator :=
    String (ascii_of_N 226) (String (ascii_of_N 128) (String (ascii_of_N 168) EmptyString)) in
  let eve address := {| ei_name := "Eve"; ei_email := address; ei_departmentId := None |} in
  let run address := EmployeeService.createEmployee calm (eve address) "key-0005"
                       (world_1 ∅ PENDING) in
  code_units ("a" +:+ no_break_space +:+ "b") = [97; 160; 98]%N
  /\ RegExp_test emailRegex ("a" +:+ no_break_space +:+ "b@example.com") = false
  /\ RegExp_test emailRegex ("a" +:+ line_separator +:+ "b@example.com") = false
  /\ RegExp_test emailRegex "ab@example.com" = true
  /\ (run ("a" +:+ no_break_space +:+ "b@example.com")).1 = Throw (Error "Invalid email format")
  /\ calls (run ("a" +:+ no_break_space +:+ "b@example.com")).2
     = [RedisGet "idempotency:employee:key-0005"].
Proof. repeat split; vm_compute; reflexivity. Qed.

(** ** Listing the employees of a department *)

(** *** The arithmetic of the numbers on the integers *)

Lemma digits2_pos_bounds (p : positive) :
  2 ^ (Zpos (digits2_pos p) - 1) <= Zpos p < 2 ^ Zpos (digits2_pos p).
Proof.
  induction p as [p IH|p IH|]; simpl digits2_pos.
  - rewrite Pos2Z.inj_succ.
    replace (Z.succ (Zpos (digits2_pos p)) - 1) with (Zpos (digits2_pos p)) by lia.
    rewrite Z.pow_succ_r by lia.
    assert (2 ^ Zpos (digits2_pos p) = 2 * 2 ^ (Zpos (digits2_pos p) - 1)) as E.
    { rewrite <- Z.pow_succ_r by lia. f_equal. lia. }
    lia.
  - rewrite Pos2Z.inj_succ.
    replace (Z.succ (Zpos (digits2_pos p)) - 1) with (Zpos (digits2_pos p)) by lia.
    rewrite Z.pow_succ_r by lia.
    assert (2 ^ Zpos (digits2_pos p) = 2 * 2 ^ (Zpos (digits2_pos p) - 1)) as E.
    { rewrite <- Z.pow_succ_r by lia. f_equal. lia. }
    lia.
  - simpl. lia.
Qed.

Lemma digits2_pos_unique (p : positive) (d : Z) :
  2 ^ (d - 1) <= Zpos p < 2 ^ d -> Zpos (digits2_pos p) = d.
Proof.
  intros [Hlo Hhi]. pose proof (digits2_pos_bounds p) as [Blo Bhi].
  assert (0 < d) as Hd.
  { destruct (Z.le_gt_cases d 0) as [Hle|]; [| done].
    assert (2 ^ d <= 2 ^ 0) by (destruct (Z.eq_dec d 0) as [->|]; [lia|];
      rewrite Z.pow_neg_r by lia; simpl; lia).
    simpl in *. lia. }
  destruct (Z.lt_trichotomy (Zpos (digits2_pos p)) d) as [Hlt | [Heq | Hgt]]; [| done |].
  - assert (2 ^ Zpos (digits2_pos p) <= 2 ^ (d - 1)) by (apply Z.pow_le_mono_r; lia). lia.
  - assert (2 ^ d <= 2 ^ (Zpos (digits2_pos p) - 1)) by (apply Z.pow_le_mono_r; lia). lia.
Qed.

Lemma iter_pos_nat {A} (f : A -> A) (p : positive) (x : A) :
  iter_pos f p x = Nat.iter (Pos.to_nat p) f x.
Proof.
  revert x. induction p as [p IH|p IH|]; intros x; simpl iter_pos.
  - rewrite !IH, Pos2Nat.inj_xI. rewrite <- Nat.iter_add.
    replace (Pos.to_nat p + Pos.to_nat p)%nat with (2 * Pos.to_nat p)%nat by lia.
    by rewrite <- Nat.iter_succ_r.
  - rewrite !IH, Pos2Nat.inj_xO. rewrite <- Nat.iter_add. f_equal. lia.
  - reflexivity.
Qed.

Lemma shr_1_double (m : Z) : 0 <= m -> shr_1 (exact_record (2 * m)) = exact_record m.
Proof. intros H. destruct m as [|p|p]; [reflexivity | reflexivity | lia]. Qed.

Lemma shr_nat_exact (n : nat) (m : Z) :
  0 <= m -> Nat.iter n shr_1 (exact_record (m * 2 ^ Z.of_nat n)) = exact_record m.
Proof.
  intros Hm. induction n as [|n IH].
  - simpl. f_equal. lia.
  - rewrite Nat.iter_succ_r.
    replace (m * 2 ^ Z.of_nat (S n)) with (2 * (m * 2 ^ Z.of_nat n))
      by (rewrite Nat2Z.inj_succ, Z.pow_succ_r by lia; lia).
    rewrite shr_1_double; [done |]. apply Z.mul_nonneg_nonneg; [done |]. apply Z.pow_nonneg. lia.
Qed.

Lemma shr_1_m (r : shr_record) : 0 <= shr_m r -> shr_m (shr_1 r) = shr_m r / 2.
Proof.
  destruct r as [m r s]. cbn [shr_m]. intros H.
  destruct m as [|[p|p|]|p]; cbn [shr_1 shr_m]; try lia.
  - reflexivity.
  - rewrite Pos2Z.inj_xI. apply Z.div_unique with (r := 1); lia.
  - rewrite Pos2Z.inj_xO. apply Z.div_unique with (r := 0); lia.
  - reflexivity.
Qed.

Lemma shr_nat_m (n : nat) (r : shr_record) :
  0 <= shr_m r -> shr_m (Nat.iter n shr_1 r) = shr_m r / 2 ^ Z.of_nat n.
Proof.
  intros H. induction n as [|n IH].
  - simpl. by rewrite Z.div_1_r.
  - simpl Nat.iter. rewrite shr_1_m.
    + rewrite IH, Nat2Z.inj_succ, Z.pow_succ_r by lia.
      rewrite Z.div_div by (try apply Z.pow_pos_nonneg; lia). f_equal. lia.
    + rewrite IH. apply Z.div_pos; [done |]. apply Z.pow_pos_nonneg; lia.
Qed.

(** [Pos.iter xO m d] is [m * 2 ^ d]. *)
Lemma iter_xO (m d : positive) : Zpos (Pos.iter xO m d) = Zpos m * 2 ^ Zpos d.
Proof.
  induction d as [|d IH] using Pos.peano_ind.
  - simpl. lia.
  - rewrite Pos.iter_succ, Pos2Z.inj_xO, IH, Pos2Z.inj_succ, Z.pow_succ_r by lia. lia.
Qed.

Lemma digits_scaled (m : positive) (j : Z) (q : positive) :
  0 <= j -> Zpos q = Zpos m * 2 ^ j -> Zpos (digits2_pos q) = Zpos (digits2_pos m) + j.
Proof.
  intros Hj Hq. apply digits2_pos_unique. rewrite Hq.
  pose proof (digits2_pos_bounds m) as [Blo Bhi].
  replace (Zpos (digits2_pos m) + j - 1) with ((Zpos (digits2_pos m) - 1) + j) by lia.
  rewrite !Z.pow_add_r by lia.
  assert (0 < 2 ^ j) by (apply Z.pow_pos_nonneg; lia). nia.
Qed.

Lemma at_exponent_scaled (M e T j : Z) :
  0 <= M -> 0 <= j -> at_exponent (M * 2 ^ j) (e - j) T = at_exponent M e T.
Proof.
  intros HM Hj. unfold at_exponent.
  destruct (T <? e) eqn:E1; destruct (T <? e - j) eqn:E2;
    try apply Z.ltb_lt in E1; try apply Z.ltb_ge in E1;
    try apply Z.ltb_lt in E2; try apply Z.ltb_ge in E2; try lia.
  - f_equal. rewrite <- Z.mul_assoc, <- Z.pow_add_r by lia. do 2 f_equal. lia.
  - replace (M * 2 ^ j) with ((M * 2 ^ (e - T)) * 2 ^ Z.of_nat (Z.to_nat (T - (e - j)))).
    + apply shr_nat_exact. apply Z.mul_nonneg_nonneg; [done |]. apply Z.pow_nonneg. lia.
    + rewrite Z2Nat.id by lia. rewrite <- Z.mul_assoc, <- Z.pow_add_r by lia. do 2 f_equal. lia.
  - assert (Z.to_nat (T - (e - j)) = (Z.to_nat (T - e) + Z.to_nat j)%nat) as Hn by lia.
    rewrite Hn, Nat.iter_add. f_equal.
    replace (2 ^ j) with (2 ^ Z.of_nat (Z.to_nat j)) by (rewrite Z2Nat.id; lia).
    by apply shr_nat_exact.
Qed.

Lemma shr_exact_record (M : positive) (e n : Z) :
  0 <= n -> shr (exact_record (Zpos M)) e n = (at_exponent (Zpos M) e (e + n), e + n).
Proof.
  intros Hn. unfold shr, at_exponent.
  destruct (e + n <? e) eqn:E; [apply Z.ltb_lt in E; lia |].
  destruct n as [|p|p]; [| | lia].
  - replace (e + 0 - e) with 0 by lia. simpl. f_equal. lia.
  - rewrite iter_pos_nat. do 2 f_equal. lia.
Qed.

Lemma binary_round_aux_finish (s : bool) (M : positive) (e : Z) :
  e <= target M e ->
  binary_round_aux prec emax s (Zpos M) e loc_Exact
  = finish s (at_exponent (Zpos M) e (target M e)) (target M e).
Proof.
  intros H. unfold binary_round_aux, finish.
  change (shr_fexp prec emax (Zpos M) e loc_Exact)
    with (shr (exact_record (Zpos M)) e (target M e - e)).
  rewrite shr_exact_record by lia.
  replace (e + (target M e - e)) with (target M e) by lia. reflexivity.
Qed.

Lemma binary_round_finish (s : bool) (M : positive) (e : Z) :
  binary_round prec emax s M e
  = finish s (at_exponent (Zpos M) e (target M e)) (target M e).
Proof.
  unfold binary_round, shl_align. fold (target M e).
  destruct (target M e - e) as [|p|p] eqn:E.
  - apply binary_round_aux_finish. lia.
  - apply binary_round_aux_finish. lia.
  - pose proof (iter_xO M p) as Hq.
    assert (target (Pos.iter xO M p) (target M e) = target M e) as HT.
    { unfold target at 1. rewrite (digits_scaled M (Zpos p) _ ltac:(lia) Hq).
      unfold target in *. f_equal. lia. }
    rewrite binary_round_aux_finish by (rewrite HT; lia).
    rewrite HT. f_equal. rewrite Hq.
    replace (target M e) with (e - Zpos p) at 1 by lia.
    apply at_exponent_scaled; lia.
Qed.

(** [binary_round] depends on the value only. *)
Lemma binary_round_scaled (s : bool) (M Q : positive) (e j : Z) :
  0 <= j -> Zpos Q = Zpos M * 2 ^ j ->
  binary_round prec emax s Q (e - j) = binary_round prec emax s M e.
Proof.
  intros Hj HQ. rewrite !binary_round_finish.
  assert (target Q (e - j) = target M e) as ->.
  { unfold target. rewrite (digits_scaled M j Q Hj HQ). f_equal. lia. }
  f_equal. rewrite HQ. apply at_exponent_scaled; lia.
Qed.

Lemma emin_value : emin prec emax = -1074.
Proof. reflexivity. Qed.

Lemma fexp_normal (x : Z) : -1021 <= x -> fexp prec emax x = x - 53.
Proof. unfold fexp. rewrite emin_value. unfold prec. lia. Qed.

Lemma digits_53 (m : positive) : 2 ^ 52 <= Zpos m < 2 ^ 53 -> Zpos (digits2_pos m) = 53.
Proof. intros H. by apply digits2_pos_unique. Qed.

Lemma finish_exact (s : bool) (m : positive) (T : Z) :
  2 ^ 52 <= Zpos m < 2 ^ 53 -> -1074 <= T <= 971 ->
  finish s (exact_record (Zpos m)) T = S754_finite s m T.
Proof.
  intros Hm HT. unfold finish, shr_fexp. cbn [exact_record shr_m loc_of_shr_record shr_r shr_s
    round_nearest_even shr_record_of_loc Zdigits2].
  rewrite (digits_53 m Hm), fexp_normal by lia.
  replace (53 + T - 53 - T) with 0 by lia. cbn [shr shr_m].
  destruct (T <=? emax - prec) eqn:E; [done |]. apply Z.leb_gt in E. unfold emax, prec in E. lia.
Qed.

Lemma round_nearest_even_bounds (m : Z) (l : location) :
  m <= round_nearest_even m l <= m + 1.
Proof. destruct l as [|[| |]]; simpl; try destruct (Z.even m); lia. Qed.

(** After rounding, a mantissa of 53 bits is a mantissa of 53 bits at the
    same exponent or the next, or the number is infinite. *)
Lemma finish_rounded (s : bool) (r : shr_record) (T : Z) :
  2 ^ 52 <= shr_m r < 2 ^ 53 -> -1074 <= T ->
  finish s r T = S754_infinity s
  \/ exists m e, finish s r T = S754_finite s m e
                 /\ 2 ^ 52 <= Zpos m < 2 ^ 53 /\ T <= e <= 971.
Proof.
  intros Hm HT. unfold finish.
  pose proof (round_nearest_even_bounds (shr_m r) (loc_of_shr_record r)) as Hb.
  destruct (round_nearest_even (shr_m r) (loc_of_shr_record r)) as [|q|q] eqn:Eq; [lia | | lia].
  destruct (Z.eq_dec (Zpos q) (2 ^ 53)) as [Hq | Hq].
  - assert (q = Z.to_pos (2 ^ 53)) as -> by lia.
    unfold shr_fexp. cbn [Zdigits2 shr_record_of_loc].
    change (Zpos (digits2_pos (Z.to_pos (2 ^ 53)))) with 54.
    rewrite fexp_normal by lia. replace (54 + T - 53 - T) with 1 by lia.
    cbn [shr iter_pos]. change (shr_m _) with (Zpos (Z.to_pos (2 ^ 52))).
    cbv iota beta.
    destruct (T + 1 <=? emax - prec) eqn:E; [right | by left].
    apply Z.leb_le in E. unfold emax, prec in E.
    eexists _, _. split; [reflexivity |]. simpl. lia.
  - unfold shr_fexp. cbn [Zdigits2 shr_record_of_loc].
    rewrite (digits_53 q) by lia. rewrite fexp_normal by lia.
    replace (53 + T - 53 - T) with 0 by lia. cbn [shr shr_m].
    destruct (T <=? emax - prec) eqn:E; [right | by left].
    apply Z.leb_le in E. unfold emax, prec in E.
    eexists _, _. split; [reflexivity |]. lia.
Qed.

Lemma scaled_pos (k : Z) (m : positive) (e v : Z) :
  0 <= k -> - k <= e -> Zpos m * 2 ^ (e + k) = v * 2 ^ k -> 0 < v.
Proof.
  intros Hk He H. assert (0 < 2 ^ (e + k)) by (apply Z.pow_pos_nonneg; lia).
  assert (0 < 2 ^ k) by (apply Z.pow_pos_nonneg; lia). nia.
Qed.

Lemma scaled_value_nonneg (k : Z) (m : positive) (e v : Z) :
  0 <= k -> 0 <= e -> Zpos m * 2 ^ (e + k) = v * 2 ^ k -> v = Zpos m * 2 ^ e.
Proof.
  intros Hk He H. rewrite Z.pow_add_r in H by lia.
  assert (0 < 2 ^ k) by (apply Z.pow_pos_nonneg; lia). nia.
Qed.

Lemma scaled_value_neg (k : Z) (m : positive) (e v : Z) :
  - k <= e <= 0 -> Zpos m * 2 ^ (e + k) = v * 2 ^ k -> Zpos m = v * 2 ^ (- e).
Proof.
  intros He H.
  assert (2 ^ k = 2 ^ (e + k) * 2 ^ (- e)) as Hp
    by (rewrite <- Z.pow_add_r by lia; f_equal; lia).
  rewrite Hp in H.
  assert (0 < 2 ^ (e + k)) by (apply Z.pow_pos_nonneg; lia). nia.
Qed.

Lemma natural_pos (m : positive) (e v : Z) :
  -52 <= e -> Zpos m * 2 ^ (e + 52) = v * 2 ^ 52 -> 0 < v.
Proof. intros He. apply (scaled_pos 52); lia. Qed.

Lemma natural_value_nonneg (m : positive) (e v : Z) :
  0 <= e -> Zpos m * 2 ^ (e + 52) = v * 2 ^ 52 -> v = Zpos m * 2 ^ e.
Proof. apply (scaled_value_nonneg 52). lia. Qed.

Lemma natural_value_neg (m : positive) (e v : Z) :
  -52 <= e <= 0 -> Zpos m * 2 ^ (e + 52) = v * 2 ^ 52 -> Zpos m = v * 2 ^ (- e).
Proof. intros He. apply (scaled_value_neg 52). lia. Qed.

(** Any two ways of writing a positive integer round to the same number. *)
Lemma binary_round_value (k : Z) (s : bool) (M : positive) (e : Z) (v : positive) :
  0 <= k -> - k <= e -> Zpos M * 2 ^ (e + k) = Zpos v * 2 ^ k ->
  binary_round prec emax s M e = binary_round prec emax s v 0.
Proof.
  intros Hk He H. destruct (Z.le_gt_cases 0 e) as [Hpos | Hneg].
  - apply scaled_value_nonneg in H; [| done | done].
    replace 0 with (e - e) by lia. symmetry. by apply binary_round_scaled.
  - apply scaled_value_neg in H; [| lia].
    replace e with (0 - (- e)) by lia. apply binary_round_scaled; [lia | done].
Qed.

Lemma number_of_Z_pos (v : positive) :
  number_of_Z (Zpos v) = binary_round prec emax false v 0.
Proof. reflexivity. Qed.

Lemma natural_of_Z (x : number) (v : Z) : natural x v -> x = number_of_Z v.
Proof.
  destruct x as [[|]| | |[|] m e]; simpl; try done.
  - by intros ->.
  - intros (Hm & He & Hv). pose proof (natural_pos m e v ltac:(lia) Hv) as Hpos.
    destruct v as [|v|v]; [lia | | lia].
    rewrite number_of_Z_pos, <- (binary_round_value 52 false m e v) by (done || lia).
    rewrite binary_round_finish.
    assert (target m e = e) as ->.
    { unfold target. rewrite (digits_53 m Hm), fexp_normal by lia. lia. }
    unfold at_exponent. rewrite Z.ltb_irrefl. replace (e - e) with 0 by lia. simpl Nat.iter.
    symmetry. apply finish_exact; [done | lia].
Qed.

Lemma natural_integer (x : number) (v : Z) :
  natural x v -> ToIntegerOrInfinity x = Integer v.
Proof.
  destruct x as [[|]| | |[|] m e]; simpl; try done.
  - by intros ->.
  - intros (Hm & He & Hv). f_equal.
    destruct (Z.le_gt_cases 0 e) as [Hpos | Hneg].
    + rewrite Z.shiftl_mul_pow2 by done. symmetry. by apply natural_value_nonneg.
    + rewrite Z.shiftl_div_pow2 by lia. apply natural_value_neg in Hv; [| lia].
      rewrite Hv. apply Z.div_mul. apply Z.pow_nonzero; lia.
Qed.

Lemma natural_nonneg (x : number) (v : Z) : natural x v -> 0 <= v.
Proof.
  destruct x as [[|]| | |[|] m e]; simpl; try done; [lia |].
  intros (_ & He & Hv). pose proof (natural_pos m e v ltac:(lia) Hv). lia.
Qed.

(** What a non-negative integer rounds to. *)
Lemma number_of_Z_rounds (v : Z) :
  0 <= v ->
  (v < 2 ^ 53 /\ natural (number_of_Z v) v)
  \/ (2 ^ 53 <= v
      /\ (number_of_Z v = S754_infinity false
          \/ exists v', natural (number_of_Z v) v' /\ 2 ^ 53 <= v')).
Proof.
  intros Hv. destruct v as [|v|v]; [left; split; [done | reflexivity] | | lia].
  rewrite number_of_Z_pos, binary_round_finish.
  pose proof (digits2_pos_bounds v) as [Dlo Dhi].
  set (d := Zpos (digits2_pos v)) in *.
  assert (1 <= d) as Hd by (subst d; lia).
  assert (target v 0 = d - 53) as ->.
  { unfold target. fold d. rewrite fexp_normal by lia. lia. }
  destruct (Z.le_gt_cases d 53) as [Hsmall | Hbig].
  - left. assert (Zpos v < 2 ^ 53) as Hlt.
    { assert (2 ^ d <= 2 ^ 53) by (apply Z.pow_le_mono_r; lia). lia. }
    split; [done |].
    unfold at_exponent. destruct (d - 53 <? 0) eqn:E.
    + replace (0 - (d - 53)) with (53 - d) by lia.
      assert (0 < 2 ^ (53 - d)) as Hp by (apply Z.pow_pos_nonneg; lia).
      destruct (Zpos v * 2 ^ (53 - d)) as [|q|q] eqn:Eq; [lia | | lia].
      assert (2 ^ 52 <= Zpos q < 2 ^ 53) as Hq.
      { rewrite <- Eq.
        assert (2 ^ 52 = 2 ^ (d - 1) * 2 ^ (53 - d)) as ->
          by (rewrite <- Z.pow_add_r by lia; f_equal; lia).
        assert (2 ^ 53 = 2 ^ d * 2 ^ (53 - d)) as ->
          by (rewrite <- Z.pow_add_r by lia; f_equal; lia).
        nia. }
      rewrite finish_exact by (done || lia). cbn [natural].
      split; [done |]. split; [lia |]. rewrite <- Eq.
      assert (2 ^ 52 = 2 ^ (53 - d) * 2 ^ (d - 53 + 52)) as Hp2
        by (rewrite <- Z.pow_add_r by lia; f_equal; lia).
      rewrite Hp2. ring.
    + apply Z.ltb_ge in E. assert (d = 53) as Hd53 by lia.
      replace (d - 53 - 0) with 0 by lia. simpl Nat.iter.
      rewrite Hd53 in Dlo, Dhi. change (53 - 1) with 52 in Dlo.
      rewrite finish_exact by (done || lia). cbn [natural].
      split; [done |]. split; [lia |]. f_equal. f_equal. lia.
  - right. assert (2 ^ 53 <= Zpos v) as Hge.
    { assert (2 ^ 53 <= 2 ^ (d - 1)) by (apply Z.pow_le_mono_r; lia). lia. }
    split; [done |].
    unfold at_exponent. destruct (d - 53 <? 0) eqn:E; [apply Z.ltb_lt in E; lia |].
    replace (d - 53 - 0) with (d - 53) by lia.
    set (r := Nat.iter (Z.to_nat (d - 53)) shr_1 (exact_record (Zpos v))).
    assert (2 ^ 52 <= shr_m r < 2 ^ 53) as Hr.
    { subst r. rewrite shr_nat_m by (simpl; lia). cbn [exact_record shr_m].
      rewrite Z2Nat.id by lia.
      assert (0 < 2 ^ (d - 53)) as Hp by (apply Z.pow_pos_nonneg; lia).
      split.
      - apply Z.div_le_lower_bound; [done |].
        rewrite <- Z.pow_add_r by lia. replace (d - 53 + 52) with (d - 1) by lia. done.
      - apply Z.div_lt_upper_bound; [done |].
        rewrite <- Z.pow_add_r by lia. replace (d - 53 + 53) with d by lia. done. }
    destruct (finish_rounded false r (d - 53) Hr ltac:(lia)) as [Hinf | (m & e & Hfin & Hm & He)].
    + by left.
    + right. exists (Zpos m * 2 ^ e). rewrite Hfin. cbn [natural]. split.
      * split; [done |]. split; [lia |]. rewrite Z.pow_add_r by lia. lia.
      * assert (2 ^ 1 <= 2 ^ e) by (apply Z.pow_le_mono_r; lia).
        change (2 ^ 53) with (2 ^ 52 * 2 ^ 1). nia.
Qed.

Lemma binary_round_aux_round (s : bool) (M : positive) (e : Z) :
  e <= target M e ->
  binary_round_aux prec emax s (Zpos M) e loc_Exact = binary_round prec emax s M e.
Proof. intros H. by rewrite binary_round_aux_finish, binary_round_finish. Qed.

Lemma number_mul_natural (x y : number) (a b : Z) :
  natural x a -> natural y b -> number_mul x y = number_of_Z (a * b).
Proof.
  destruct x as [[|]| | |[|] mx ex]; cbn [natural]; try done;
    destruct y as [[|]| | |[|] my ey]; cbn [natural]; try done.
  - by intros -> ->.
  - by intros -> _.
  - intros _ ->. by rewrite Z.mul_0_r.
  - intros (Hmx & Hex & Ha) (Hmy & Hey & Hb).
    pose proof (natural_pos mx ex a ltac:(lia) Ha) as Hapos.
    pose proof (natural_pos my ey b ltac:(lia) Hb) as Hbpos.
    destruct (a * b) as [|v|v] eqn:Ev; [nia | | nia].
    rewrite number_of_Z_pos. unfold number_mul, SFmul. cbn [xorb].
    assert (2 ^ 104 <= Zpos (mx * my) < 2 ^ 106) as Hmm.
    { rewrite Pos2Z.inj_mul. change (2 ^ 104) with (2 ^ 52 * 2 ^ 52).
      change (2 ^ 106) with (2 ^ 53 * 2 ^ 53). nia. }
    pose proof (digits2_pos_bounds (mx * my)) as [Dlo Dhi].
    assert (105 <= Zpos (digits2_pos (mx * my))) as Hd.
    { destruct (Z.le_gt_cases 105 (Zpos (digits2_pos (mx * my)))) as [|Hlt]; [done |].
      assert (2 ^ Zpos (digits2_pos (mx * my)) <= 2 ^ 104) by (apply Z.pow_le_mono_r; lia).
      lia. }
    rewrite binary_round_aux_round.
    + apply (binary_round_value 104); [lia | lia |].
      rewrite <- Ev, Pos2Z.inj_mul.
      replace (ex + ey + 104) with ((ex + 52) + (ey + 52)) by lia.
      rewrite Z.pow_add_r by lia. change (2 ^ 104) with (2 ^ 52 * 2 ^ 52).
      clear Hmm Dlo Dhi Hd Ev. nia.
    + unfold target. rewrite fexp_normal by lia. lia.
Qed.

Lemma shl_align_fst (m : positive) (e ez : Z) :
  ez <= e -> Zpos (fst (shl_align m e ez)) = Zpos m * 2 ^ (e - ez).
Proof.
  intros H. unfold shl_align. destruct (ez - e) as [|p|p] eqn:E; cbn [fst].
  - replace (e - ez) with 0 by lia. lia.
  - lia.
  - rewrite iter_xO. do 2 f_equal. lia.
Qed.

Lemma number_add_natural (x y : number) (a b : Z) :
  natural x a -> natural y b -> number_add x y = number_of_Z (a + b).
Proof.
  intros Hx Hy. pose proof (natural_of_Z _ _ Hx) as Ex. pose proof (natural_of_Z _ _ Hy) as Ey.
  revert Hx Hy.
  destruct x as [[|]| | |[|] mx ex]; cbn [natural]; try done;
    destruct y as [[|]| | |[|] my ey]; cbn [natural]; try done.
  - by intros -> ->.
  - intros -> _. by rewrite Z.add_0_l.
  - intros _ ->. by rewrite Z.add_0_r.
  - intros (Hmx & Hex & Ha) (Hmy & Hey & Hb).
    pose proof (natural_pos mx ex a ltac:(lia) Ha) as Hapos.
    pose proof (natural_pos my ey b ltac:(lia) Hb) as Hbpos.
    unfold number_add, SFadd. cbn [cond_Zopp].
    set (ez := Z.min ex ey).
    pose proof (shl_align_fst mx ex ez ltac:(lia)) as Hsx.
    pose proof (shl_align_fst my ey ez ltac:(lia)) as Hsy.
    destruct (a + b) as [|v|v] eqn:Ev; [lia | | lia].
    rewrite number_of_Z_pos.
    destruct (Zpos (fst (shl_align mx ex ez)) + Zpos (fst (shl_align my ey ez)))
      as [|S|S] eqn:ES; [lia | | lia].
    cbn [binary_normalize].
    apply (binary_round_value 52); [lia | lia |].
    rewrite <- ES, Hsx, Hsy, <- Ev.
    assert (2 ^ (ex + 52) = 2 ^ (ex - ez) * 2 ^ (ez + 52)) as Hpx
      by (rewrite <- Z.pow_add_r by lia; f_equal; lia).
    assert (2 ^ (ey + 52) = 2 ^ (ey - ez) * 2 ^ (ez + 52)) as Hpy
      by (rewrite <- Z.pow_add_r by lia; f_equal; lia).
    rewrite Hpx in Ha. rewrite Hpy in Hb. clear Ex Ey Hsx Hsy ES Ev Hpx Hpy. nia.
Qed.

Lemma number_sub_natural (x y : number) (a b : Z) :
  natural x a -> natural y b -> b <= a -> number_sub x y = number_of_Z (a - b).
Proof.
  intros Hx Hy. pose proof (natural_of_Z _ _ Hx) as Ex. pose proof (natural_of_Z _ _ Hy) as Ey.
  revert Hx Hy.
  destruct x as [[|]| | |[|] mx ex]; cbn [natural]; try done;
    destruct y as [[|]| | |[|] my ey]; cbn [natural]; try done.
  - by intros -> ->.
  - intros -> (_ & Hey & Hb) Hle.
    pose proof (natural_pos my ey b ltac:(lia) Hb). lia.
  - intros _ -> _. by rewrite Z.sub_0_r.
  - intros (Hmx & Hex & Ha) (Hmy & Hey & Hb) Hle.
    pose proof (natural_pos mx ex a ltac:(lia) Ha) as Hapos.
    pose proof (natural_pos my ey b ltac:(lia) Hb) as Hbpos.
    unfold number_sub, SFsub. cbn [cond_Zopp].
    set (ez := Z.min ex ey).
    pose proof (shl_align_fst mx ex ez ltac:(lia)) as Hsx.
    pose proof (shl_align_fst my ey ez ltac:(lia)) as Hsy.
    assert (2 ^ (ex + 52) = 2 ^ (ex - ez) * 2 ^ (ez + 52)) as Hpx
      by (rewrite <- Z.pow_add_r by lia; f_equal; lia).
    assert (2 ^ (ey + 52) = 2 ^ (ey - ez) * 2 ^ (ez + 52)) as Hpy
      by (rewrite <- Z.pow_add_r by lia; f_equal; lia).
    rewrite Hpx in Ha. rewrite Hpy in Hb.
    assert (0 < 2 ^ (ez + 52)) as Hpz by (apply Z.pow_pos_nonneg; lia).
    assert ((Zpos (fst (shl_align mx ex ez)) - Zpos (fst (shl_align my ey ez))) * 2 ^ (ez + 52)
            = (a - b) * 2 ^ 52) as Hv.
    { rewrite Hsx, Hsy. clear Ex Ey Hsx Hsy Hpx Hpy. nia. }
    destruct (a - b) as [|v|v] eqn:Ev; [| | lia].
    + assert (Zpos (fst (shl_align mx ex ez)) - Zpos (fst (shl_align my ey ez)) = 0) as ->
        by (clear Ex Ey Hsx Hsy Hpx Hpy Ha Hb; nia).
      reflexivity.
    + rewrite number_of_Z_pos.
      destruct (Zpos (fst (shl_align mx ex ez)) - Zpos (fst (shl_align my ey ez)))
        as [|S|S] eqn:ES; [lia | | clear Ex Ey Hsx Hsy Hpx Hpy Ha Hb; nia].
      cbn [binary_normalize].
      apply (binary_round_value 52); [lia | lia | done].
Qed.

Lemma integer_value_natural (x : number) (v : Z) :
  integer_value x = Some v -> 0 < v -> natural x v.
Proof.
  destruct x as [s| | |s m e]; cbn [integer_value]; try done.
  - intros [= <-]. lia.
  - destruct (valid_binary prec emax (S754_finite s m e)) eqn:Hvalid; [| done].
    cbn [valid_binary] in Hvalid. unfold bounded, canonical_mantissa in Hvalid.
    apply andb_true_iff in Hvalid as [Hcanon Hemax].
    apply Z.eqb_eq in Hcanon. apply Z.leb_le in Hemax. unfold emax, prec in Hemax.
    cbn [andb]. intros Hv Hpos.
    pose proof (digits2_pos_bounds m) as [Dlo Dhi].
    set (d := Zpos (digits2_pos m)) in *.
    assert (1 <= d) as Hd by (subst d; lia).
    unfold fexp in Hcanon. rewrite emin_value in Hcanon. unfold prec in Hcanon.
    destruct ((0 <=? e) || (Zpos m mod 2 ^ (- e) =? 0)) eqn:Hint; [| done].
    injection Hv as Hv.
    assert (s = false) as ->.
    { destruct s; [| done]. cbn [cond_Zopp] in Hv.
      assert (0 <= Z.shiftl (Zpos m) e) by (apply Z.shiftl_nonneg; lia). lia. }
    cbn [cond_Zopp] in Hv. cbn [natural].
    assert (-52 <= e /\ d = 53) as [He Hd53].
    { apply orb_true_iff in Hint as [Hint | Hint].
      - apply Z.leb_le in Hint. lia.
      - apply Z.eqb_eq in Hint.
        destruct (Z.le_gt_cases 0 e) as [|Hneg]; [lia |].
        assert (0 < 2 ^ (- e)) as Hp by (apply Z.pow_pos_nonneg; lia).
        assert (2 ^ (- e) <= Zpos m) as Hle.
        { apply Z.mod_divide in Hint; [| lia]. apply Z.divide_pos_le in Hint; lia. }
        assert (- e < d) as Hlt.
        { destruct (Z.le_gt_cases d (- e)) as [Hc|]; [| lia].
          assert (2 ^ d <= 2 ^ (- e)) by (apply Z.pow_le_mono_r; lia). lia. }
        lia. }
    rewrite Hd53 in Dlo, Dhi. change (53 - 1) with 52 in Dlo.
    split; [done |]. split; [lia |]. subst v.
    destruct (Z.le_gt_cases 0 e) as [Hnn | Hneg].
    + rewrite Z.shiftl_mul_pow2, Z.pow_add_r by lia. ring.
    + rewrite Z.shiftl_div_pow2 by lia.
      apply orb_true_iff in Hint as [Hint | Hint]; [apply Z.leb_le in Hint; lia |].
      apply Z.eqb_eq in Hint.
      assert (0 < 2 ^ (- e)) as Hp by (apply Z.pow_pos_nonneg; lia).
      apply Z.mod_divide in Hint; [| lia]. destruct Hint as [q Hq].
      rewrite Hq, Z.div_mul by lia.
      assert (2 ^ 52 = 2 ^ (- e) * 2 ^ (e + 52)) as ->
        by (rewrite <- Z.pow_add_r by lia; f_equal; lia).
      ring.
Qed.

Lemma approximates_mul (x y : number) (a b : Z) :
  approximates x a -> natural y b -> 1 <= b -> approximates (number_mul x y) (a * b).
Proof.
  intros [[Ha Hx] | [Ha [-> | (v' & Hx & Hv')]]] Hy Hb.
  - rewrite (number_mul_natural _ _ _ _ Hx Hy). apply number_of_Z_rounds.
    pose proof (natural_nonneg _ _ Hx). nia.
  - right. split; [nia |]. left.
    destruct y as [[|]| | |[|] my ey]; cbn [natural] in Hy; try done. lia.
  - rewrite (number_mul_natural _ _ _ _ Hx Hy).
    destruct (number_of_Z_rounds (v' * b)) as [[Hlt _] | [_ Hbig]]; [nia | nia |].
    right. split; [nia | done].
Qed.

Lemma approximates_add (x y : number) (a b : Z) :
  approximates x a -> natural y b -> approximates (number_add x y) (a + b).
Proof.
  intros [[Ha Hx] | [Ha [-> | (v' & Hx & Hv')]]] Hy; pose proof (natural_nonneg _ _ Hy) as Hb.
  - rewrite (number_add_natural _ _ _ _ Hx Hy). apply number_of_Z_rounds.
    pose proof (natural_nonneg _ _ Hx). lia.
  - right. split; [lia |]. left.
    destruct y as [[|]| | |[|] my ey]; cbn [natural] in Hy; done.
  - rewrite (number_add_natural _ _ _ _ Hx Hy).
    destruct (number_of_Z_rounds (v' + b)) as [[Hlt _] | [_ Hbig]]; [lia | lia |].
    right. split; [lia | done].
Qed.

Lemma approximates_index (x : number) (v len : Z) :
  approximates x v -> 0 <= len < 2 ^ 53 ->
  relative_index len (ToIntegerOrInfinity x) = Z.min v len.
Proof.
  intros [[Hv Hx] | [Hv [-> | (v' & Hx & Hv')]]] Hlen.
  - rewrite (natural_integer _ _ Hx). cbn [relative_index].
    pose proof (natural_nonneg _ _ Hx). destruct (v <? 0) eqn:E; [apply Z.ltb_lt in E; lia | done].
  - cbn [ToIntegerOrInfinity relative_index]. lia.
  - rewrite (natural_integer _ _ Hx). cbn [relative_index].
    destruct (v' <? 0) eqn:E; [apply Z.ltb_lt in E; lia | lia].
Qed.

Lemma take_drop_clamped {A} (l : list A) (s e : Z) :
  0 <= s <= e ->
  let len := Z.of_nat (List.length l) in
  take (Z.to_nat (Z.min e len - Z.min s len)) (drop (Z.to_nat (Z.min s len)) l)
  = take (Z.to_nat (e - s)) (drop (Z.to_nat s) l).
Proof.
  intros Hse len. destruct (Z.le_gt_cases len s) as [Hbeyond | Hin].
  - rewrite !drop_ge by (subst len; lia). by rewrite !take_nil.
  - rewrite (Z.min_l s len) by lia.
    destruct (Z.le_gt_cases e len) as [He | He].
    + by rewrite (Z.min_l e len) by lia.
    + rewrite (Z.min_r e len) by lia.
      rewrite !take_ge; [done | |]; rewrite length_drop; subst len; lia.
Qed.

Lemma slice_approximates {A} (l : list A) (start final : number) (s e : Z) :
  approximates start s -> approximates final e -> 0 <= s <= e ->
  Z.of_nat (List.length l) < 2 ^ 53 ->
  slice l start final = take (Z.to_nat (e - s)) (drop (Z.to_nat s) l).
Proof.
  intros Hs He Hse Hlen. unfold slice.
  rewrite (approximates_index _ _ _ Hs), (approximates_index _ _ _ He) by lia.
  by apply take_drop_clamped.
Qed.

Lemma integer_value_zero (x : number) :
  integer_value x = Some 0 -> exists s, x = S754_zero s.
Proof.
  destruct x as [s| | |s m e]; cbn [integer_value]; try done; [by exists s |].
  destruct (valid_binary _ _ _); [| done]. cbn [andb].
  destruct ((0 <=? e) || (Zpos m mod 2 ^ (- e) =? 0)) eqn:Hint; [| done].
  intros [= Hv]. exfalso.
  assert (0 < Z.shiftl (Zpos m) e); [| destruct s; cbn [cond_Zopp] in Hv; lia].
  apply orb_true_iff in Hint as [Hint | Hint].
  - apply Z.leb_le in Hint. rewrite Z.shiftl_mul_pow2 by done.
    assert (0 < 2 ^ e) by (apply Z.pow_pos_nonneg; lia). lia.
  - apply Z.eqb_eq in Hint. destruct (Z.le_gt_cases 0 e) as [Hnn | Hneg].
    + rewrite Z.shiftl_mul_pow2 by done.
      assert (0 < 2 ^ e) by (apply Z.pow_pos_nonneg; lia). lia.
    + rewrite Z.shiftl_div_pow2 by lia.
      assert (0 < 2 ^ (- e)) as Hp by (apply Z.pow_pos_nonneg; lia).
      apply Z.mod_divide in Hint; [| lia]. destruct Hint as [q Hq].
      rewrite Hq, Z.div_mul by lia. nia.
Qed.

(** The page of the integers [p] and [l], as the numbers compute it. *)
Lemma slice_page {A} (rows : list A) (page limit : number) (p l : Z) :
  integer_value page = Some p -> integer_value limit = Some l ->
  1 <= p -> 0 <= l -> Z.of_nat (List.length rows) < 2 ^ 53 ->
  slice rows (number_mul (number_sub page (number_of_Z 1)) limit)
    (number_add (number_mul (number_sub page (number_of_Z 1)) limit) limit)
  = take (Z.to_nat l) (drop (Z.to_nat ((p - 1) * l)) rows).
Proof.
  intros Hpage Hlimit Hp Hl Hlen.
  set (start := number_mul (number_sub page (number_of_Z 1)) limit).
  apply integer_value_natural in Hpage as Hnp; [| lia].
  assert (natural (number_of_Z 1) 1) as Hone by (vm_compute; split; [| split]; done).
  assert (approximates (number_sub page (number_of_Z 1)) (p - 1)) as Hq.
  { rewrite (number_sub_natural _ _ _ _ Hnp Hone) by lia. apply number_of_Z_rounds. lia. }
  destruct (Z.eq_dec l 0) as [-> | Hl0].
  - apply integer_value_zero in Hlimit as [s ->].
    assert (ToIntegerOrInfinity start = Integer 0
            /\ ToIntegerOrInfinity (number_add start (S754_zero s)) = Integer 0) as [E1 E2].
    { subst start.
      destruct Hq as [[_ Hx] | [_ [-> | (v' & Hx & _)]]];
        [| destruct s; split; reflexivity |];
        destruct (number_sub page (number_of_Z 1)) as [[|]| | |[|] mq eq];
        cbn [natural] in Hx; try done; destruct s; split; reflexivity. }
    unfold slice. rewrite E1, E2, Z.sub_diag. reflexivity.
  - apply integer_value_natural in Hlimit as Hnl; [| lia].
    pose proof (approximates_mul _ _ _ _ Hq Hnl ltac:(lia)) as Hstart. fold start in Hstart.
    pose proof (approximates_add _ _ _ _ Hstart Hnl) as Hfinal.
    rewrite (slice_approximates _ _ _ _ _ Hstart Hfinal) by (done || nia).
    do 2 f_equal. lia.
Qed.

(** *** The pages *)

#[local] Arguments number_of_Z : simpl never.
#[local] Arguments number_add : simpl never.
#[local] Arguments number_sub : simpl never.
#[local] Arguments number_mul : simpl never.
#[local] Arguments slice : simpl never.

(** C10, as the claim states it for every call, fails, because nothing
    checks the numbers of the query. With a limit of -1, [slice(0, -1)] of
    the two employees of the department is one item, more than the limit.
    With page 2 and a limit of one half, [slice(0.5, 1)] is the item at
    index 0, one item for a limit of one half. With page 0 and a limit of
    10, [slice(-10, 0)] is empty, where the items from the first on, ten
    of them at most, are the two employees. *)
Lemma listEmployeesInDepartment_unchecked_numbers :
  let listing page limit :=
    (DepartmentService.listEmployeesInDepartment (parse_table []) decimal "d-1"
       (Some page) (Some limit) (world_1 ∅ PENDING)).1 in
  (listing (number_of_Z 1) (number_of_Z (-1))
   = Ok (Computed {| data := [alice]; count := 2;
                     page := number_of_Z 1; limit := number_of_Z (-1) |})
   /\ integer_value (number_of_Z (-1)) = Some (-1)
   /\ ~ (Z.of_nat (List.length [alice]) <= -1))
  /\ (listing (number_of_Z 2) half
      = Ok (Computed {| data := [alice]; count := 2; page := number_of_Z 2; limit := half |})
      /\ number_lt half (number_of_Z (Z.of_nat (List.length [alice]))) = true
      /\ integer_value half = None)
  /\ (listing (number_of_Z 0) (number_of_Z 10)
      = Ok (Computed {| data := []; count := 2;
                        page := number_of_Z 0; limit := number_of_Z 10 |})
      /\ take (Z.to_nat 10) (drop (Z.to_nat ((0 - 1) * 10)) (employees_of "d-1" (store_1 PENDING)))
         = [alice; bob]).
Proof.
  split; [| split].
  - split; [vm_compute; reflexivity |]. split; [vm_compute; reflexivity | simpl; lia].
  - split; [vm_compute; reflexivity |]. split; vm_compute; reflexivity.
  - split; vm_compute; reflexivity.
Qed.

(** C10 (amended). On a cache miss with [page] and [limit] integers,
    [page >= 1] and [limit >= 0] (defaults 1 and 10), and fewer than two
    to the 32 employees in the store, as many as an array can hold,
    [listEmployeesInDepartment] returns the employees whose [departmentId]
    is the given id, from index [(page - 1) * limit], at most [limit] of
    them, with [count] the number of all the matching employees, and
    stores the JSON of the response under the page's key for 60 seconds.
    On a cache hit it returns the parsed entry after the one Redis read,
    without asking the repository. *)
Theorem listEmployeesInDepartment_pages (JSON_parse : string -> option Json)
    (Number_toString : number -> string)
    (departmentId : string) (page limit : option number) (w : World) :
  let page' := default (number_of_Z 1) page in
  let limit' := default (number_of_Z 10) limit in
  let cacheKey := page_key Number_toString departmentId page' limit' in
  let filtered := employees_of departmentId (db w) in
  (forall p l : Z,
     truthy (fst <$> redis w !! cacheKey) = false ->
     integer_value page' = Some p -> integer_value limit' = Some l ->
     1 <= p -> 0 <= l ->
     Z.of_nat (List.length (employees (db w))) < 2 ^ 32 ->
     let response :=
       {| data := take (Z.to_nat l) (drop (Z.to_nat ((p - 1) * l)) filtered);
          count := Z.of_nat (List.length filtered); page := page'; limit := limit' |} in
     let json := JSON_stringify (PaginatedResponse_toJSON Number_toString response) in
     DepartmentService.listEmployeesInDepartment JSON_parse Number_toString
       departmentId page limit w
     = (Ok (Computed response),
        emit (RedisSetEx cacheKey 60 json)
             (set_redis (<[cacheKey := (json, 60)]> (redis w))
                        (emit GetAllEmployees (emit (RedisGet cacheKey) w))))
     /\ Z.of_nat (List.length (data response)) <= l
     /\ (forall e, e ∈ filtered <-> e ∈ employees (db w) /\ Employee.departmentId e = departmentId))
  /\ (forall cached seconds v,
         redis w !! cacheKey = Some (cached, seconds) ->
         cached <> EmptyString ->
         JSON_parse cached = Some v ->
         DepartmentService.listEmployeesInDepartment JSON_parse Number_toString
           departmentId page limit w
         = (Ok (FromCache v), emit (RedisGet cacheKey) w)).
Proof.
  intros page' limit' cacheKey filtered. split.
  - intros p l Hmiss Hpage Hlimit Hp Hl Hlen response json.
    split; [| split].
    + unfold DepartmentService.listEmployeesInDepartment. unfold_M. cbn.
      fold page' limit'. fold (page_key Number_toString departmentId page' limit').
      fold cacheKey. rewrite Hmiss. cbn.
      unfold EmployeeRepository.getAllEmployees.
      fold (employees_of departmentId (db w)). fold filtered.
      rewrite (slice_page filtered page' limit' p l Hpage Hlimit Hp Hl); [reflexivity |].
      assert (List.length filtered <= List.length (employees (db w)))%nat
        by apply filter_length_le.
      assert (2 ^ 32 < 2 ^ 53) by (apply Z.pow_lt_mono_r; lia). lia.
    + subst response. cbn. rewrite length_take. lia.
    + intros e. unfold filtered, employees_of.
      rewrite !list_elem_of_In, filter_In, String.eqb_eq. done.
  - intros cached seconds v Hhit Hne Hparse.
    unfold DepartmentService.listEmployeesInDepartment. unfold_M. cbn.
    fold page' limit'. fold (page_key Number_toString departmentId page' limit').
    fold cacheKey. rewrite Hhit. cbn.
    destruct (String.eqb cached EmptyString) eqn:E; [by apply String.eqb_eq in E |].
    cbn. by rewrite Hparse.
Qed.

Lemma listEmployeesInDepartment_pages_witness :
  let w := world_1 ∅ PENDING in
  let one := number_of_Z 1 in
  let ten := number_of_Z 10 in
  let response := {| data := [alice; bob]; count := 2; page := one; limit := ten |} in
  let json := JSON_stringify (PaginatedResponse_toJSON decimal response) in
  (truthy (fst <$> redis w !! page_1_key) = false
   /\ integer_value one = Some 1 /\ integer_value ten = Some 10
   /\ 1 <= 1 /\ 0 <= 10
   /\ Z.of_nat (List.length (employees (db w))) < 2 ^ 32)
  /\ DepartmentService.listEmployeesInDepartment (parse_table []) decimal "d-1" None None w
     = (Ok (Computed response),
        emit (RedisSetEx page_1_key 60 json)
             (set_redis (<[page_1_key := (json, 60)]> (redis w))
                        (emit GetAllEmployees (emit (RedisGet page_1_key) w)))).
Proof.
  intros w one ten response json.
  assert (truthy (fst <$> redis w !! page_1_key) = false) as H1 by (vm_compute; reflexivity).
  assert (integer_value one = Some 1) as H2 by (vm_compute; reflexivity).
  assert (integer_value ten = Some 10) as H3 by (vm_compute; reflexivity).
  assert (1 <= 1) as H4 by lia.
  assert (0 <= 10) as H5 by lia.
  assert (Z.of_nat (List.length (employees (db w))) < 2 ^ 32) as H6 by (vm_compute; reflexivity).
  split; [exact (conj H1 (conj H2 (conj H3 (conj H4 (conj H5 H6))))) |].
  exact (proj1 (proj1 (listEmployeesInDepartment_pages (parse_table []) decimal "d-1"
                         None None w) 1 10 H1 H2 H3 H4 H5 H6)).
Defined.

(** A second call finds the page in the cache and does not ask the repository. *)
Example listEmployeesInDepartment_hit :
  let response := {| data := [alice; bob]; count := 2;
                     page := number_of_Z 1; limit := number_of_Z 10 |} in
  let document := PaginatedResponse_toJSON decimal response in
  let first := DepartmentService.listEmployeesInDepartment (parse_table [document]) decimal
                 "d-1" None None (world_1 ∅ PENDING) in
  let second := DepartmentService.listEmployeesInDepartment (parse_table [document]) decimal
                  "d-1" None None first.2 in
  first.1 = Ok (Computed response)
  /\ second.1 = Ok (FromCache document)
  /\ calls second.2 = (calls first.2 ++ [RedisGet page_1_key])%list.
Proof. repeat split; vm_compute; reflexivity. Qed.

(** ** The worker *)

Section WorkerProperties.
Variable JSON_parse : string -> option Json.
Variable StringToNumber : string -> number.
Variable cfg : Settings.


Lemma on_failure_retry (msg : Message) (w : World) :
  Worker.greater_than StringToNumber
    (Worker.next_retry_count (default ∅ (headers msg))) (MAX_RETRIES cfg) = false ->
  Worker.on_failure StringToNumber cfg msg w
  = (Ok tt, emit (Ack msg) (suspend (republish cfg msg) w)).
Proof. intros Hle. unfold Worker.on_failure. by rewrite Hle. Qed.


Lemma handleMessage_success (env : Env) (msg : Message) (w w1 : World) :
  Worker.adjudicate JSON_parse env msg w = (Ok tt, w1) ->
  Worker.handleMessage JSON_parse StringToNumber cfg env (Some msg) w = (Ok tt, w1).
Proof. intros H. unfold Worker.handleMessage, try_catch. by rewrite H. Qed.



End WorkerProperties.



(** The copy sent back to the main queue carries no header, so its retry
    count starts again at one, whatever the count of the original. *)
Lemma republished_count_restarts (cfg : Settings) (msg : Message) :
  pub_options (republished cfg msg) = None
  /\ Worker.next_retry_count (default ∅ (headers (delivered (republished cfg msg))))
     = PNum (number_of_Z 1).
Proof. split; reflexivity. Qed.

(** With a maximum of one or more, a message that came back that way is
    never dead-lettered: each failure sends it back again. *)
Lemma republished_never_dead_lettered (StringToNumber : string -> number) (cfg : Settings)
    (msg : Message) (w : World) :
  number_lt (MAX_RETRIES cfg) (number_of_Z 1) = false ->
  let again := delivered (republished cfg msg) in
  Worker.on_failure StringToNumber cfg again w
  = (Ok tt, emit (Ack again) (suspend (republish cfg again) w)).
Proof. intros Hmax again. by apply on_failure_retry. Qed.

(** C1 (the code departs from the claim on the retry path). A message
    delivered with [x-retry-count] 2 names a leave request that does not
    exist, so its adjudication throws. The incremented count is 3, under
    the default maximum of 5, and the worker calls the producer and
    acknowledges the original; but the copy the producer publishes, once
    it has its channel, carries no header at all, where the claim has it
    carry the count 3 (and its body is the JSON rendering of the byte
    buffer, not the original body). Consumed again, it counts 1. *)
Theorem retry_loses_retry_count :
  let JSON_parse := parse_table [approval_message "key-0009" "l-404"] in
  let w := world_1 ∅ PENDING in
  let run := Worker.handleMessage JSON_parse (to_number []) default_Settings calm
               (Some retried_twice) w in
  let sent := run_pending Opened run.2 in
  (Worker.adjudicate JSON_parse calm retried_twice w).1
  = Throw (Error "Leave request with ID l-404 not found")
  /\ Worker.next_retry_count (default ∅ (headers retried_twice)) = PNum (number_of_Z 3)
  /\ MAX_RETRIES default_Settings = number_of_Z 5
  /\ run.1 = Ok tt
  /\ last (calls run.2) = Some (Ack retried_twice)
  /\ pending run.2 = [republish default_Settings retried_twice]
  /\ sent.1 = Ok tt
  /\ publications (calls sent.2)
     = [ {| pub_queue := "leave_requests";
            pub_content := JSON_stringify (Buffer_toJSON missing_leave_body);
            pub_options := None |} ]
  /\ Worker.next_retry_count
       (default ∅ (headers (delivered (republished default_Settings retried_twice))))
     = PNum (number_of_Z 1).
Proof. repeat split; vm_compute; reflexivity. Qed.

(** The dead-letter path does what the claim says, for a message that
    arrives with a count the maximum has been reached by. *)
Example dead_letter_after_maximum :
  let JSON_parse := parse_table [approval_message "key-0009" "l-404"] in
  let msg := {| content := missing_leave_body;
                headers := Some {[ "x-retry-count" := HNum (number_of_Z 5) ]} |} in
  let run := Worker.handleMessage JSON_parse (to_number []) default_Settings calm (Some msg)
               (world_1 ∅ PENDING) in
  run.1 = Ok tt
  /\ publications (calls run.2)
     = [ {| pub_queue := "leave_requests_dlq";
            pub_content := missing_leave_body;
            pub_options := Some ({[ "x-retry-count" := HNum (number_of_Z 5);
                                    "x-original-queue" := HStr "leave_requests" ]}, true) |} ]
  /\ last (calls run.2) = Some (Ack msg)
  /\ pending run.2 = [].
Proof. repeat split; vm_compute; reflexivity. Qed.

(** A count that arrives as a string is concatenated, not incremented:
    ["2" + 1] is ["21"], which is more than the maximum of 5, and the
    message is dead-lettered on its third delivery. *)
Example retry_count_as_string :
  let msg := {| content := "not json"; headers := Some {[ "x-retry-count" := HStr "2" ]} |} in
  let run := Worker.handleMessage (parse_table []) (to_number [("21", number_of_Z 21)])
               default_Settings calm (Some msg) (world_1 ∅ PENDING) in
  Worker.next_retry_count (default ∅ (headers msg)) = PStr "21"
  /\ run.1 = Ok tt
  /\ pub_queue <$> publications (calls run.2) = ["leave_requests_dlq"]
  /\ last (calls run.2) = Some (Ack msg).
Proof. repeat split; vm_compute; reflexivity. Qed.

(** ** Repeated calls *)

Lemma idempotency_key_not_department (scope key departmentId rest : string) :
  "idempotency:" +:+ scope +:+ key <> employees_prefix departmentId +:+ rest.
Proof. unfold employees_prefix. rewrite !append_cons. discriminate. Qed.

(** A successful creation leaves its record under the idempotency key,
    for 24 hours; the invalidation that follows does not remove it. *)
Lemma createLeaveRequest_records (cfg : Settings) (env : Env) (payload : LeaveRequestInsert)
    (key : string) (w w' : World) (created : LeaveRequest.t) :
  LeaveRequestService.createLeaveRequest cfg env payload key w = (Ok created, w') ->
  redis w' !! ("idempotency:leaverequest:create:" +:+ key)
  = Some (JSON_stringify (JObj [("leaveRequestId", JStr (LeaveRequest.id created));
                                ("createdAt", JStr (now env))]), 86400).
Proof.
  intros H. unfold LeaveRequestService.createLeaveRequest in H. run_in H.
  all: invert_calls; simpl.
  all: try (rewrite after_invalidate_other;
            [| done | intros rest; apply (idempotency_key_not_department "leaverequest:create:")]).
  all: simpl; by rewrite lookup_insert_eq.
Qed.

(** Creating with key K and trying again with K, whatever the payload, is
    refused with Conflict after the one Redis read: never a second row. *)
Lemma createLeaveRequest_repeat (cfg : Settings) (env env2 : Env)
    (payload payload2 : LeaveRequestInsert) (key : string) (w w' : World)
    (created : LeaveRequest.t) :
  LeaveRequestService.createLeaveRequest cfg env payload key w = (Ok created, w') ->
  LeaveRequestService.createLeaveRequest cfg env2 payload2 key w'
  = (Throw (ConflictError duplicate_request),
     emit (RedisGet ("idempotency:leaverequest:create:" +:+ key)) w').
Proof.
  intros H. apply createLeaveRequest_duplicate.
  by rewrite (createLeaveRequest_records _ _ _ _ _ _ _ H).
Qed.

Lemma updateStatus_records (env : Env) (id : string) (status : Status) (key : string)
    (w w' : World) (updated : LeaveRequest.t) :
  LeaveRequestService.updateStatus env id status key w = (Ok (Some updated), w') ->
  redis w' !! ("idempotency:leaverequest:update:" +:+ key)
  = Some (JSON_stringify (JObj [("leaveRequestId", JStr (LeaveRequest.id updated));
                                ("updatedAt", JStr (now env));
                                ("status", JStr (Status_name status))]), 86400).
Proof.
  intros H. unfold LeaveRequestService.updateStatus in H. run_in H.
  all: repeat match goal with
       | Hi : LeaveRequestService.invalidateDepartmentEmployeeCaches (_ <$> ?e) _ = _ |- _ =>
           destruct e; [simpl in Hi | discriminate]
       end.
  all: invert_calls; simpl.
  all: try (rewrite after_invalidate_other;
            [| done | intros rest; apply (idempotency_key_not_department "leaverequest:update:")]).
  all: simpl; by rewrite lookup_insert_eq.
Qed.

Lemma updateStatus_repeat (env env2 : Env) (id id2 : string) (status status2 : Status)
    (key : string) (w w' : World) (updated : LeaveRequest.t) :
  LeaveRequestService.updateStatus env id status key w = (Ok (Some updated), w') ->
  LeaveRequestService.updateStatus env2 id2 status2 key w'
  = (Throw (ConflictError duplicate_request),
     emit (RedisGet ("idempotency:leaverequest:update:" +:+ key)) w').
Proof.
  intros H. apply updateStatus_duplicate.
  by rewrite (updateStatus_records _ _ _ _ _ _ _ H).
Qed.

(** ** The scenarios of the specification *)

(** A leave of one day: PENDING, one message, once the producer has its
    channel. *)
Example scenario_one_day :
  let run := LeaveRequestService.createLeaveRequest default_Settings calm short_leave "key-0001"
               (world_1 cached_pages PENDING) in
  run.1 = Ok leave_2
  /\ publications (calls (run_pending Opened run.2).2)
     = [ {| pub_queue := "leave_requests";
            pub_content := JSON_stringify (approval_message "key-0001" "l-2");
            pub_options := None |} ]
  /\ redis run.2 !! page_1_key = None
  /\ redis run.2 !! "departments:d-2:employees:page=1&limit=10" = Some ("[]", 60).
Proof. repeat split; vm_compute; reflexivity. Qed.

(** A leave of three days: PENDING, no message. *)
Example scenario_three_days :
  let run := LeaveRequestService.createLeaveRequest default_Settings calm long_leave "key-0002"
               (world_1 ∅ PENDING) in
  (LeaveRequest.status <$> match run.1 with Ok r => Some r | _ => None end) = Some PENDING
  /\ publications (calls run.2) = []
  /\ pending run.2 = [].
Proof. repeat split; vm_compute; reflexivity. Qed.

(** A leave that ends before it starts: BadRequest, no transaction. *)
Example scenario_dates :
  let payload := {| li_employeeId := "e-1"; li_startDate := 5 * one_day; li_endDate := one_day |} in
  let run := LeaveRequestService.createLeaveRequest default_Settings calm payload "key-0002"
               (world_1 ∅ PENDING) in
  run.1 = Throw (BadRequestError "End date must be after start date")
  /\ calls run.2 = [RedisGet "idempotency:leaverequest:create:key-0002"; GetEmployeeById "e-1"].
Proof. repeat split; vm_compute; reflexivity. Qed.

(** An employee for a department that does not exist: NotFound, no transaction. *)
Example scenario_unknown_department :
  let dave := {| ei_name := "Dave"; ei_email := "dave@example.com";
                 ei_departmentId := Some "d-9" |} in
  let run := EmployeeService.createEmployee calm dave "key-0004" (world_1 ∅ PENDING) in
  run.1 = Throw (NotFoundError "Department with ID d-9 not found")
  /\ calls run.2 = [RedisGet "idempotency:employee:key-0004"; GetDepartmentById "d-9"].
Proof. repeat split; vm_compute; reflexivity. Qed.

(** The worker approves a short leave and acknowledges the message. *)
Example scenario_worker_approves :
  let body := JSON_stringify (approval_message "key-0001" "l-1") in
  let msg := {| content := body; headers := None |} in
  let run := Worker.handleMessage (parse_table [approval_message "key-0001" "l-1"]) (to_number [])
               default_Settings calm (Some msg) (world_1 cached_pages PENDING) in
  run.1 = Ok tt
  /\ leaveRequests (db run.2) = [leave_1 APPROVED]
  /\ last (calls run.2) = Some (Ack msg)
  /\ publications (calls run.2) = []
  /\ pending run.2 = []
  /\ redis run.2 !! page_1_key = None.
Proof. repeat split; vm_compute; reflexivity. Qed.
